(** * AcadPlanner: the course store, its validation and the weighted index

    A shallow embedding of the business logic of the AcadPlanner page
    ([calcIRA], [seedData], [validateCourse], [addCourse], [update],
    [remove]) and the properties of it that the specification states,
    followed by the counters of the planning tab, the list of toasts and
    the contact form ([handleChange], [handleSubmit]).

    Modelling decisions, all local to this file:
    - the functions are embedded twice.  In the first embedding a
      JavaScript [number] is an exact rational ([Q]): it serves the
      properties in which no arithmetic on doubles takes part (the order
      of the validation rules, identifiers, the shape of the collection,
      which records the index keeps, its guard against a zero divisor).
      In the second one, the module [Ieee], a [number] is a binary64
      double, with the kernel's primitive floats: it serves the properties
      that depend on rounding or on [NaN] (the value of the index, the
      credit hours that validation lets through);
    - the value [undefined], which only arises when [update] spreads a
      record that [find] did not return, is represented by [None] at the
      places where the source can meet it, and a comparison with it is
      false, as a comparison with [NaN] is.  A property of a patch is
      absent or holds a value of its type;
    - a JavaScript string is the list of its UTF-16 code units, so that
      [trim] and the [periodo] pattern see what the engine sees;
    - [uuid()] reads [Math.random]: every identifier it returns is an
      explicit argument of the operation that draws it;
    - [addNotification] is a writer effect: an operation returns the toasts
      it emits, in order.  A toast's own identifier and its five-second
      timer only concern the display and are left out there; the list of
      toasts that the application keeps is modelled on its own ([Toast]),
      the timer being the removal it performs when it runs out;
    - [setCourses] and [setNovo] are explicit state passing over
      [Planner]; the snapshot written to local storage after each change
      is a copy of [courses] and is not modelled. *)

From Stdlib Require Import List Bool Arith NArith ZArith QArith Qfield.
From Stdlib Require Import String Ascii Permutation Lia Lqa.
From Stdlib Require Import Floats.
Import ListNotations.

Set Implicit Arguments.
Open Scope Q_scope.

(** ** Strings *)

Module JsString.

(** A string value: its UTF-16 code units. *)
Definition t := list N.

(** The code units of an ASCII literal. *)
Fixpoint of_ascii (s : string) : t :=
  match s with
  | EmptyString => []
  | String a rest => N_of_ascii a :: of_ascii rest
  end.

Definition eqb (a b : t) : bool :=
  if list_eq_dec N.eq_dec a b then true else false.

(** ECMAScript [WhiteSpace] and [LineTerminator] code points, the ones
    [String.prototype.trim] strips.  All of them are single code units. *)
Definition isWhiteSpace (c : N) : bool :=
  ((9 <=? c) && (c <=? 13) || (c =? 32) || (c =? 160) || (c =? 5760)
   || (8192 <=? c) && (c <=? 8202) || (c =? 8232) || (c =? 8233)
   || (c =? 8239) || (c =? 8287) || (c =? 12288) || (c =? 65279))%N.

Fixpoint trimStart (s : t) : t :=
  match s with
  | [] => []
  | c :: rest => if isWhiteSpace c then trimStart rest else s
  end.

Definition trimEnd (s : t) : t := rev (trimStart (rev s)).

Definition trim (s : t) : t := trimEnd (trimStart s).

(** Truthiness of a string: only the empty string is falsy. *)
Definition truthy (s : t) : bool :=
  match s with [] => false | _ :: _ => true end.

Definition isDigit (c : N) : bool := ((48 <=? c) && (c <=? 57))%N.

End JsString.

Definition jsstring : Type := JsString.t.
Definition js (s : string) : jsstring := JsString.of_ascii s.

(** ** Data model *)

(** [status]: "Cursada" | "Em andamento" | "A cursar". *)
Inductive Status : Type := Cursada | EmAndamento | ACursar.

Definition Status_eqb (a b : Status) : bool :=
  match a, b with
  | Cursada, Cursada | EmAndamento, EmAndamento | ACursar, ACursar => true
  | _, _ => false
  end.

(** [nota: number | ""]: a grade, or the empty string of an empty field. *)
Inductive Nota : Type :=
| NotaVazia
| NotaNum (q : Q).

Definition nota_vazia (n : Nota) : bool :=
  match n with NotaVazia => true | NotaNum _ => false end.

(** [Number(c.nota)] on a value of type [number | ""]; [Number("")] is 0. *)
Definition Number_ (n : Nota) : Q :=
  match n with NotaVazia => 0 | NotaNum q => q end.

Record Course : Type := mkCourse {
  id : jsstring;
  nome : jsstring;
  ch : Q;
  nota : Nota;
  periodo : jsstring;
  status : Status
}.

(** [Partial<Course>], and more generally a course object some of whose
    properties may be missing: [None] is a property that reads
    [undefined]. *)
Record PartialCourse : Type := mkPartial {
  p_id : option jsstring;
  p_nome : option jsstring;
  p_ch : option Q;
  p_nota : option Nota;
  p_periodo : option jsstring;
  p_status : option Status
}.

Definition emptyPatch : PartialCourse :=
  mkPartial None None None None None None.

(** A complete record seen as an object. *)
Definition objOf (c : Course) : PartialCourse :=
  mkPartial (Some (id c)) (Some (nome c)) (Some (ch c)) (Some (nota c))
            (Some (periodo c)) (Some (status c)).

(** [{}], which is also what spreading [undefined] contributes. *)
Definition emptyObj : PartialCourse := emptyPatch.

Definition orElse {A : Type} (over under : option A) : option A :=
  match over with Some v => Some v | None => under end.

(** Object spread [{...base, ...patch}]: a property of [patch] wins. *)
Definition spreadObj (base patch : PartialCourse) : PartialCourse :=
  mkPartial (orElse (p_id patch) (p_id base))
            (orElse (p_nome patch) (p_nome base))
            (orElse (p_ch patch) (p_ch base))
            (orElse (p_nota patch) (p_nota base))
            (orElse (p_periodo patch) (p_periodo base))
            (orElse (p_status patch) (p_status base)).

(** An object that has every property of [Course] is a [Course]. *)
Definition complete (o : PartialCourse) : option Course :=
  match o with
  | mkPartial (Some i) (Some n) (Some h) (Some g) (Some p) (Some s) =>
      Some (mkCourse i n h g p s)
  | _ => None
  end.

Fixpoint completeAll (l : list PartialCourse) : option (list Course) :=
  match l with
  | [] => Some []
  | o :: rest =>
      match complete o, completeAll rest with
      | Some c, Some cs => Some (c :: cs)
      | _, _ => None
      end
  end.

(** The same spread read on complete records: the merge of [patch] into
    [c], field by field. *)
Definition spread (c : Course) (patch : PartialCourse) : Course :=
  mkCourse (match p_id patch with Some v => v | None => id c end)
           (match p_nome patch with Some v => v | None => nome c end)
           (match p_ch patch with Some v => v | None => ch c end)
           (match p_nota patch with Some v => v | None => nota c end)
           (match p_periodo patch with Some v => v | None => periodo c end)
           (match p_status patch with Some v => v | None => status c end).

(** [{...novo, id: v}] *)
Definition withId (c : Course) (v : jsstring) : Course :=
  mkCourse v (nome c) (ch c) (nota c) (periodo c) (status c).

(** ** Notifications *)

Inductive Severity : Type := success | error | info.

Record Notification : Type := mkNotification {
  message : string;
  type : Severity
}.

(** The effect of code that may throw: a normal completion with a value, or
    the [TypeError] of reading a property of [undefined].  [Untyped] is not
    a behaviour of the program: it marks the point where the unchecked cast
    [as Course] of [update] would store an object that lacks a property of
    [Course]; [update_never_untyped] shows that it is never reached. *)
Inductive Completion (A : Type) : Type :=
| Normal (a : A)
| TypeError
| Untyped.
Arguments TypeError {A}.
Arguments Untyped {A}.

(** ** The weighted index

    [calcIRA] over the rationals: the filter and the guard are those of
    the code, the sums and the quotient are exact.  The value that the
    code computes, on doubles, is that of [Ieee.calcIRA] below. *)

Definition Qlt_bool (x y : Q) : bool := negb (Qle_bool y x).

Definition concluida (c : Course) : bool :=
  negb (Status_eqb (status c) ACursar) && negb (nota_vazia (nota c)).

Definition calcIRA (courses : list Course) : Q :=
  let concl := filter concluida courses in
  let somaP := fold_left (fun acc c => acc + Number_ (nota c) * ch c) concl 0 in
  let somaCH := fold_left (fun acc c => acc + ch c) concl 0 in
  if Qeq_bool somaCH 0 then 0 else somaP / somaCH.

(** [seedData], given the three identifiers its [uuid()] calls return. *)
Definition seedData (i1 i2 i3 : jsstring) : list Course :=
  [ mkCourse i1 (js "Qu" ++ [237%N] ++ js "mica Inorg" ++ [226%N] ++ js "nica (128h)")
             128 (NotaNum 7) (js "2025.1") Cursada;
    mkCourse i2 (js "Qu" ++ [237%N] ++ js "mica Anal" ++ [237%N] ++ js "tica (CLAE)")
             64 (NotaNum 8) (js "2025.2") EmAndamento;
    mkCourse i3 (js "Termodin" ++ [226%N] ++ js "mica de Processos")
             64 NotaVazia (js "2026.1") ACursar ].

(** ** Validation *)

(** [/^\d{4}\.[12]$/]: no flags, so the anchors are the ends of the input
    and [\d] is an ASCII digit. *)
Definition matchPeriodo (s : jsstring) : bool :=
  match s with
  | [d1; d2; d3; d4; dot; sem] =>
      JsString.isDigit d1 && JsString.isDigit d2 && JsString.isDigit d3
      && JsString.isDigit d4 && (dot =? 46)%N && ((sem =? 49) || (sem =? 50))%N
  | _ => false
  end.

Definition msgNome : string := "Nome da disciplina é obrigatório".
Definition msgCH : string := "Carga horária deve ser maior que zero".
Definition msgNota : string :=
  "Nota deve estar entre 0 e 10 para disciplinas cursadas".
Definition msgPeriodo : string :=
  "Período deve estar no formato AAAA.S (ex: 2025.1)".
Definition msgAdicionada : string := "Disciplina adicionada com sucesso".
Definition msgAtualizada : string := "Disciplina atualizada com sucesso".
Definition msgRemovida : string := "Disciplina removida com sucesso".

(** [course.ch <= 0]; [undefined <= 0] is false. *)
Definition chNaoPositiva (v : option Q) : bool :=
  match v with Some q => Qle_bool q 0 | None => false end.

(** [course.nota === "" || Number(course.nota) < 0 || Number(course.nota) > 10];
    [undefined] is not [""] and [Number(undefined)] is [NaN], below and
    above nothing. *)
Definition notaForaDaFaixa (v : option Nota) : bool :=
  match v with
  | Some n => nota_vazia n || Qlt_bool (Number_ n) 0 || Qlt_bool 10 (Number_ n)
  | None => false
  end.

(** [course.status === "Cursada"] *)
Definition statusCursada (v : option Status) : bool :=
  match v with Some s => Status_eqb s Cursada | None => false end.

(** [validateCourse]: the toasts it emits and the boolean it returns, or the
    [TypeError] thrown when [nome] or [periodo] is [undefined] at the moment
    the function calls a method on it. *)
Definition validateCourse (course : PartialCourse)
  : Completion (list Notification * bool) :=
  match p_nome course with
  | None => TypeError
  | Some n =>
      if negb (JsString.truthy (JsString.trim n)) then
        Normal ([mkNotification msgNome error], false)
      else if chNaoPositiva (p_ch course) then
        Normal ([mkNotification msgCH error], false)
      else if statusCursada (p_status course)
              && notaForaDaFaixa (p_nota course) then
        Normal ([mkNotification msgNota error], false)
      else
        match p_periodo course with
        | None => TypeError
        | Some p =>
            if negb (matchPeriodo p) then
              Normal ([mkNotification msgPeriodo error], false)
            else Normal ([], true)
        end
  end.

(** ** The course store *)

(** The state the [Planner] component works on: the [courses] prop and its
    own draft [novo]. *)
Record Planner : Type := mkPlanner {
  courses : list Course;
  novo : Course
}.

Definition Effect : Type := Completion (Planner * list Notification).

(** The draft a mounted [Planner] starts with; [g] is the identifier drawn
    by [uuid()] and [ano] the decimal digits of the current year. *)
Definition novoInicial (g ano : jsstring) : Course :=
  mkCourse g [] 64 NotaVazia (ano ++ js ".1") ACursar.

(** A form field of the draft row: [setNovo({...novo, field: value})]. *)
Definition editNovo (patch : PartialCourse) (st : Planner) : Effect :=
  Normal (mkPlanner (courses st) (spread (novo st) patch), []).

(** [addCourse]; [g1] is the identifier drawn for the record and [g2] the
    one drawn for the next draft. *)
Definition addCourse (g1 g2 : jsstring) (st : Planner) : Effect :=
  match validateCourse (objOf (novo st)) with
  | Normal (log, true) =>
      Normal (mkPlanner (withId (novo st) g1 :: courses st)
                        (mkCourse g2 [] 64 NotaVazia (periodo (novo st)) ACursar),
              log ++ [mkNotification msgAdicionada success])
  | Normal (log, false) => Normal (st, log)
  | TypeError => TypeError
  | Untyped => Untyped
  end.

(** [courses.find(c => c.id === id)] spread into an object literal. *)
Definition found (i : jsstring) (cs : list Course) : PartialCourse :=
  match find (fun c => JsString.eqb (id c) i) cs with
  | Some c => objOf c
  | None => emptyObj
  end.

(** [update] *)
Definition update (i : jsstring) (patch : PartialCourse) (st : Planner)
  : Effect :=
  let updatedCourse := spreadObj (found i (courses st)) patch in
  match validateCourse updatedCourse with
  | Normal (log, true) =>
      match completeAll
              (map (fun c => if JsString.eqb (id c) i then updatedCourse
                             else objOf c) (courses st)) with
      | Some cs =>
          Normal (mkPlanner cs (novo st),
                  log ++ [mkNotification msgAtualizada success])
      | None => Untyped
      end
  | Normal (log, false) => Normal (st, log)
  | TypeError => TypeError
  | Untyped => Untyped
  end.

(** [remove] *)
Definition remove (i : jsstring) (st : Planner) : Effect :=
  Normal (mkPlanner (filter (fun c => negb (JsString.eqb (id c) i)) (courses st))
                    (novo st),
          [mkNotification msgRemovida success]).

(** What the user can do on the planning tab: edit a field of the draft
    row, press the add button, edit a cell of the table, press the bin of a
    row.  [Update] and [Remove] stand for the two functions on any
    arguments, which is more than the table can send. *)
Inductive Event : Type :=
| EditNovo (patch : PartialCourse)
| AddCourse (g1 g2 : jsstring)
| Update (i : jsstring) (patch : PartialCourse)
| Remove (i : jsstring).

Definition handle (e : Event) (st : Planner) : Effect :=
  match e with
  | EditNovo patch => editNovo patch st
  | AddCourse g1 g2 => addCourse g1 g2 st
  | Update i patch => update i patch st
  | Remove i => remove i st
  end.

(** The states the store goes through when it starts from the seed. *)
Inductive reachable : Planner -> Prop :=
| reach_seed (i1 i2 i3 g ano : jsstring) :
    reachable (mkPlanner (seedData i1 i2 i3) (novoInicial g ano))
| reach_step (e : Event) (st st' : Planner) (log : list Notification) :
    reachable st -> handle e st = Normal (st', log) -> reachable st'.

(** ** Vocabulary of the specification *)


(** A record counts for the index: its status is not "A cursar" and its
    grade is set. *)
Definition qualifies (c : Course) : Prop :=
  status c <> ACursar /\ nota c <> NotaVazia.

Definition ids (cs : list Course) : list jsstring := map id cs.



(** The four rules of the specification, each on its own. *)
Definition regraNome (c : Course) : Prop :=
  JsString.trim (nome c) <> [].
Definition regraCH (c : Course) : Prop := 0 < ch c.
Definition regraNota (c : Course) : Prop :=
  status c = Cursada -> exists q, nota c = NotaNum q /\ 0 <= q /\ q <= 10.
Definition regraPeriodo (c : Course) : Prop :=
  exists d1 d2 d3 d4 s,
    periodo c = [d1; d2; d3; d4; 46%N; s]
    /\ Forall (fun d => (48 <= d <= 57)%N) [d1; d2; d3; d4]
    /\ (s = 49%N \/ s = 50%N).

(** Events handled one after the other; a handler that throws stops the
    run. *)
Fixpoint run (es : list Event) (st : Planner) : option Planner :=
  match es with
  | [] => Some st
  | e :: rest =>
      match handle e st with
      | Normal (st', _) => run rest st'
      | _ => None
      end
  end.

(** ** Sample data

    The records of the scenarios that the specification lists, and a few
    states built from them. *)

Definition fisica (i : jsstring) : Course :=
  mkCourse i (js "Physics I") 64 (NotaNum 8) (js "2025.1") Cursada.
Definition calculo (i : jsstring) : Course :=
  mkCourse i (js "Calc II") 64 (NotaNum 6) (js "2025.1") Cursada.
Definition ruim (i : jsstring) : Course :=
  mkCourse i (js "Bad") 0 (NotaNum 5) (js "2025.1") Cursada.
Definition futura (i : jsstring) : Course :=
  mkCourse i (js "Future Course") 32 NotaVazia (js "2026.1") ACursar.

(** A planner fresh from the seed, and one with an empty collection. *)
Definition inicial : Planner :=
  mkPlanner (seedData (js "a1") (js "a2") (js "a3"))
            (novoInicial (js "n0") (js "2025")).
Definition vazio (draft : Course) : Planner := mkPlanner [] draft.

(** Patches: one field, as the table cells send them, and a name with a
    term. *)
Definition patchNota (q : Q) : PartialCourse :=
  mkPartial None None None (Some (NotaNum q)) None None.
Definition patchCH (q : Q) : PartialCourse :=
  mkPartial None None (Some q) None None None.
Definition patchNomePeriodo (n p : jsstring) : PartialCourse :=
  mkPartial None (Some n) None None (Some p) None.

(** Typing a name, a number of hours, a grade and a status in the draft row
    and pressing the button. *)
Definition cadastrar (n : jsstring) (h : Q) (g : Nota) (s : Status)
           (g1 g2 : jsstring) : list Event :=
  [ EditNovo (mkPartial None (Some n) None None None None);
    EditNovo (mkPartial None None (Some h) None None None);
    EditNovo (mkPartial None None None (Some g) None None);
    EditNovo (mkPartial None None None None None (Some s));
    AddCourse g1 g2 ].

(** ** The counters of the planning tab *)

(** [courses.filter(c => c.status === s).length] *)
Definition contar (s : Status) (cs : list Course) : nat :=
  List.length (filter (fun c => Status_eqb (status c) s) cs).

Definition concluidas (cs : list Course) : nat := contar Cursada cs.
Definition andamento (cs : list Course) : nat := contar EmAndamento cs.
Definition futuras (cs : list Course) : nat := contar ACursar cs.

(** ** The toasts of the application

    The [notifications] state of [AcadPlannerApp]: here a toast carries the
    identifier that [addNotification] draws for it, which is what
    [removeNotification] and the timer select on. *)

Record Toast : Type := mkToast {
  t_id : jsstring;
  t_message : string;
  t_type : Severity
}.

(** [addNotification(message, type = "info")]; [g] is the identifier drawn
    by [uuid()], [None] an omitted second argument.  The toast goes to the
    end of the list. *)
Definition addNotification (g : jsstring) (msg : string)
           (ty : option Severity) (prev : list Toast) : list Toast :=
  prev ++ [mkToast g msg (match ty with Some t => t | None => info end)].

(** [removeNotification(id)]; the callback that [addNotification] hands to
    [setTimeout] applies the same filter when the five seconds are over. *)
Definition removeNotification (i : jsstring) (prev : list Toast)
  : list Toast :=
  filter (fun n => negb (JsString.eqb (t_id n) i)) prev.

(** ** Regular expressions

    The two patterns of the source use character classes, concatenation
    and repetition under [^] and [$]: [match] returns a result exactly
    when the whole string belongs to the language of the pattern.  Matching
    is decided by derivatives. *)

Module Regex.

Inductive t : Type :=
| Empty
| Eps
| Class (p : N -> bool)
| Cat (a b : t)
| Alt (a b : t)
| Star (a : t).

(** [a+] *)
Definition plus (a : t) : t := Cat a (Star a).

Fixpoint nullable (r : t) : bool :=
  match r with
  | Empty => false
  | Eps => true
  | Class _ => false
  | Cat a b => nullable a && nullable b
  | Alt a b => nullable a || nullable b
  | Star _ => true
  end.

Fixpoint deriv (c : N) (r : t) : t :=
  match r with
  | Empty => Empty
  | Eps => Empty
  | Class p => if p c then Eps else Empty
  | Cat a b =>
      if nullable a then Alt (Cat (deriv c a) b) (deriv c b)
      else Cat (deriv c a) b
  | Alt a b => Alt (deriv c a) (deriv c b)
  | Star a => Cat (deriv c a) (Star a)
  end.

Fixpoint matches (r : t) (s : list N) : bool :=
  match s with
  | [] => nullable r
  | c :: rest => matches (deriv c r) rest
  end.

(** The language of a pattern. *)
Inductive lang : t -> list N -> Prop :=
| lang_eps : lang Eps []
| lang_class (p : N -> bool) (c : N) : p c = true -> lang (Class p) [c]
| lang_cat (a b : t) (s1 s2 : list N) :
    lang a s1 -> lang b s2 -> lang (Cat a b) (s1 ++ s2)
| lang_alt_l (a b : t) (s : list N) : lang a s -> lang (Alt a b) s
| lang_alt_r (a b : t) (s : list N) : lang b s -> lang (Alt a b) s
| lang_star_nil (a : t) : lang (Star a) []
| lang_star_cons (a : t) (s1 s2 : list N) :
    lang a s1 -> lang (Star a) s2 -> lang (Star a) (s1 ++ s2).

End Regex.

(** [[^\s@]]: [\s] is the set that [trim] strips. *)
Definition naoEspacoNemArroba (c : N) : bool :=
  negb (JsString.isWhiteSpace c || (c =? 64)%N).

(** [/^[^\s@]+@[^\s@]+\.[^\s@]+$/] *)
Definition padraoEmail : Regex.t :=
  Regex.Cat (Regex.plus (Regex.Class naoEspacoNemArroba))
    (Regex.Cat (Regex.Class (fun c => (c =? 64)%N))
       (Regex.Cat (Regex.plus (Regex.Class naoEspacoNemArroba))
          (Regex.Cat (Regex.Class (fun c => (c =? 46)%N))
             (Regex.plus (Regex.Class naoEspacoNemArroba))))).

(** [/^\d{4}\.[12]$/], the pattern that [matchPeriodo] decides. *)
Definition padraoPeriodo : Regex.t :=
  let d := Regex.Class JsString.isDigit in
  Regex.Cat d (Regex.Cat d (Regex.Cat d (Regex.Cat d
    (Regex.Cat (Regex.Class (fun c => (c =? 46)%N))
               (Regex.Class (fun c => (c =? 49) || (c =? 50))%N))))).

(** ** The contact form *)

Record FormData : Type := mkFormData {
  f_nome : jsstring;
  f_email : jsstring;
  f_mensagem : jsstring
}.

(** [e.target.name]: the [name] of the three controls of the form. *)
Inductive Campo : Type := CampoNome | CampoEmail | CampoMensagem.

(** [handleChange]: [{...prev, [e.target.name]: e.target.value}] *)
Definition handleChange (campo : Campo) (value : jsstring) (prev : FormData)
  : FormData :=
  match campo with
  | CampoNome => mkFormData value (f_email prev) (f_mensagem prev)
  | CampoEmail => mkFormData (f_nome prev) value (f_mensagem prev)
  | CampoMensagem => mkFormData (f_nome prev) (f_email prev) value
  end.

Definition msgCampos : string := "Por favor, preencha todos os campos".
Definition msgEmail : string := "Por favor, insira um email válido".
Definition msgEnviada : string :=
  "Mensagem enviada com sucesso! Em breve retornarei o contato.".

(** [handleSubmit]: the form data after the call and the toasts emitted. *)
Definition handleSubmit (formData : FormData)
  : FormData * list Notification :=
  if negb (JsString.truthy (JsString.trim (f_nome formData)))
     || negb (JsString.truthy (JsString.trim (f_email formData)))
     || negb (JsString.truthy (JsString.trim (f_mensagem formData)))
  then (formData, [mkNotification msgCampos error])
  else if negb (Regex.matches padraoEmail (f_email formData))
  then (formData, [mkNotification msgEmail error])
  else (mkFormData [] [] [], [mkNotification msgEnviada success]).

(** ** More vocabulary *)

(** The four rules together. *)
Definition valida (c : Course) : Prop :=
  regraNome c /\ regraCH c /\ regraNota c /\ regraPeriodo c.

(** An event that keeps identifiers unique: the identifier drawn by
    [addCourse] is not in use, and a patch of [update] does not carry an
    identifier. *)
Definition preservaIds (e : Event) (st : Planner) : Prop :=
  match e with
  | AddCourse g1 _ => ~ In g1 (ids (courses st))
  | Update _ patch => p_id patch = None
  | EditNovo _ | Remove _ => True
  end.

(** A string made of code units that are neither white space nor [@]. *)
Definition semEspacoNemArroba (s : jsstring) : Prop :=
  Forall (fun c => naoEspacoNemArroba c = true) s.

(** The shape of an address that the contact form accepts. *)
Definition formaEmail (s : jsstring) : Prop :=
  exists u v w,
    s = u ++ [64%N] ++ v ++ [46%N] ++ w
    /\ u <> [] /\ v <> [] /\ w <> []
    /\ semEspacoNemArroba u /\ semEspacoNemArroba v /\ semEspacoNemArroba w.

(** [formData[campo]] *)
Definition campoValor (campo : Campo) (fd : FormData) : jsstring :=
  match campo with
  | CampoNome => f_nome fd
  | CampoEmail => f_email fd
  | CampoMensagem => f_mensagem fd
  end.

(** A field that [trim] leaves empty. *)
Definition emBranco (s : jsstring) : Prop := JsString.trim s = [].

(** Sample form data. *)
Definition formOk : FormData :=
  mkFormData (js "Ana") (js "ana@ufc.br") (js "Oi").

(** ** The same code over binary64

    A [number] of the program is an IEEE 754 double.  Where a property
    depends on what the arithmetic and the comparisons do on doubles (the
    rounding of sums and quotients, [NaN]), the functions are embedded
    again with the kernel's primitive floats in the place of the
    rationals: the text of each definition is the one above, with [<=],
    [<], [===], [+], [*] and [/] of binary64.  Strings, statuses, toasts
    and completions are shared with the definitions above. *)

Module Ieee.

Local Open Scope float_scope.

(** [nota: number | ""] *)
Inductive Nota : Type :=
| NotaVazia
| NotaNum (x : float).

Definition nota_vazia (n : Nota) : bool :=
  match n with NotaVazia => true | NotaNum _ => false end.

(** [Number(c.nota)]; [Number("")] is 0. *)
Definition Number_ (n : Nota) : float :=
  match n with NotaVazia => 0 | NotaNum x => x end.

Record Course : Type := mkCourse {
  id : jsstring;
  nome : jsstring;
  ch : float;
  nota : Nota;
  periodo : jsstring;
  status : Status
}.

(** [Partial<Course>]: [None] is a property that reads [undefined]. *)
Record PartialCourse : Type := mkPartial {
  p_id : option jsstring;
  p_nome : option jsstring;
  p_ch : option float;
  p_nota : option Nota;
  p_periodo : option jsstring;
  p_status : option Status
}.

Definition emptyObj : PartialCourse :=
  mkPartial None None None None None None.

Definition objOf (c : Course) : PartialCourse :=
  mkPartial (Some (id c)) (Some (nome c)) (Some (ch c)) (Some (nota c))
            (Some (periodo c)) (Some (status c)).

(** [{...base, ...patch}] *)
Definition spreadObj (base patch : PartialCourse) : PartialCourse :=
  mkPartial (orElse (p_id patch) (p_id base))
            (orElse (p_nome patch) (p_nome base))
            (orElse (p_ch patch) (p_ch base))
            (orElse (p_nota patch) (p_nota base))
            (orElse (p_periodo patch) (p_periodo base))
            (orElse (p_status patch) (p_status base)).

Definition complete (o : PartialCourse) : option Course :=
  match o with
  | mkPartial (Some i) (Some n) (Some h) (Some g) (Some p) (Some s) =>
      Some (mkCourse i n h g p s)
  | _ => None
  end.

Fixpoint completeAll (l : list PartialCourse) : option (list Course) :=
  match l with
  | [] => Some []
  | o :: rest =>
      match complete o, completeAll rest with
      | Some c, Some cs => Some (c :: cs)
      | _, _ => None
      end
  end.

(** [{...c, ...patch}] on a complete record. *)
Definition spread (c : Course) (patch : PartialCourse) : Course :=
  mkCourse (match p_id patch with Some v => v | None => id c end)
           (match p_nome patch with Some v => v | None => nome c end)
           (match p_ch patch with Some v => v | None => ch c end)
           (match p_nota patch with Some v => v | None => nota c end)
           (match p_periodo patch with Some v => v | None => periodo c end)
           (match p_status patch with Some v => v | None => status c end).

(** [{...novo, id: v}] *)
Definition withId (c : Course) (v : jsstring) : Course :=
  mkCourse v (nome c) (ch c) (nota c) (periodo c) (status c).

Definition concluida (c : Course) : bool :=
  negb (Status_eqb (status c) ACursar) && negb (nota_vazia (nota c)).

(** [calcIRA]: the two [reduce] run from the left, starting at 0;
    [somaCH === 0] is the equality of doubles, true of both zeros and false
    of [NaN]. *)
Definition calcIRA (courses : list Course) : float :=
  let concl := filter concluida courses in
  let somaP := fold_left (fun acc c => acc + Number_ (nota c) * ch c) concl 0 in
  let somaCH := fold_left (fun acc c => acc + ch c) concl 0 in
  if somaCH =? 0 then 0 else somaP / somaCH.

Definition seedData (i1 i2 i3 : jsstring) : list Course :=
  [ mkCourse i1 (js "Qu" ++ [237%N] ++ js "mica Inorg" ++ [226%N] ++ js "nica (128h)")
             128 (NotaNum 7) (js "2025.1") Cursada;
    mkCourse i2 (js "Qu" ++ [237%N] ++ js "mica Anal" ++ [237%N] ++ js "tica (CLAE)")
             64 (NotaNum 8) (js "2025.2") EmAndamento;
    mkCourse i3 (js "Termodin" ++ [226%N] ++ js "mica de Processos")
             64 NotaVazia (js "2026.1") ACursar ].

(** [course.ch <= 0]; false on [NaN] and on [undefined]. *)
Definition chNaoPositiva (v : option float) : bool :=
  match v with Some x => x <=? 0 | None => false end.

(** [course.nota === "" || Number(course.nota) < 0 || Number(course.nota) > 10] *)
Definition notaForaDaFaixa (v : option Nota) : bool :=
  match v with
  | Some n => nota_vazia n || (Number_ n <? 0) || (10 <? Number_ n)
  | None => false
  end.

(** [validateCourse] *)
Definition validateCourse (course : PartialCourse)
  : Completion (list Notification * bool) :=
  match p_nome course with
  | None => TypeError
  | Some n =>
      if negb (JsString.truthy (JsString.trim n)) then
        Normal ([mkNotification msgNome error], false)
      else if chNaoPositiva (p_ch course) then
        Normal ([mkNotification msgCH error], false)
      else if statusCursada (p_status course)
              && notaForaDaFaixa (p_nota course) then
        Normal ([mkNotification msgNota error], false)
      else
        match p_periodo course with
        | None => TypeError
        | Some p =>
            if negb (matchPeriodo p) then
              Normal ([mkNotification msgPeriodo error], false)
            else Normal ([], true)
        end
  end.

Record Planner : Type := mkPlanner {
  courses : list Course;
  novo : Course
}.

Definition Effect : Type := Completion (Planner * list Notification).

Definition novoInicial (g ano : jsstring) : Course :=
  mkCourse g [] 64 NotaVazia (ano ++ js ".1") ACursar.

(** [setNovo({...novo, field: value})] *)
Definition editNovo (patch : PartialCourse) (st : Planner) : Effect :=
  Normal (mkPlanner (courses st) (spread (novo st) patch), []).

(** [addCourse] *)
Definition addCourse (g1 g2 : jsstring) (st : Planner) : Effect :=
  match validateCourse (objOf (novo st)) with
  | Normal (log, true) =>
      Normal (mkPlanner (withId (novo st) g1 :: courses st)
                        (mkCourse g2 [] 64 NotaVazia (periodo (novo st)) ACursar),
              log ++ [mkNotification msgAdicionada success])
  | Normal (log, false) => Normal (st, log)
  | TypeError => TypeError
  | Untyped => Untyped
  end.

Definition found (i : jsstring) (cs : list Course) : PartialCourse :=
  match find (fun c => JsString.eqb (id c) i) cs with
  | Some c => objOf c
  | None => emptyObj
  end.

(** [update] *)
Definition update (i : jsstring) (patch : PartialCourse) (st : Planner)
  : Effect :=
  let updatedCourse := spreadObj (found i (courses st)) patch in
  match validateCourse updatedCourse with
  | Normal (log, true) =>
      match completeAll
              (map (fun c => if JsString.eqb (id c) i then updatedCourse
                             else objOf c) (courses st)) with
      | Some cs =>
          Normal (mkPlanner cs (novo st),
                  log ++ [mkNotification msgAtualizada success])
      | None => Untyped
      end
  | Normal (log, false) => Normal (st, log)
  | TypeError => TypeError
  | Untyped => Untyped
  end.

(** [remove] *)
Definition remove (i : jsstring) (st : Planner) : Effect :=
  Normal (mkPlanner (filter (fun c => negb (JsString.eqb (id c) i)) (courses st))
                    (novo st),
          [mkNotification msgRemovida success]).

Inductive Event : Type :=
| EditNovo (patch : PartialCourse)
| AddCourse (g1 g2 : jsstring)
| Update (i : jsstring) (patch : PartialCourse)
| Remove (i : jsstring).

Definition handle (e : Event) (st : Planner) : Effect :=
  match e with
  | EditNovo patch => editNovo patch st
  | AddCourse g1 g2 => addCourse g1 g2 st
  | Update i patch => update i patch st
  | Remove i => remove i st
  end.

(** The states the store goes through when it starts from the seed. *)
Inductive reachable : Planner -> Prop :=
| reach_seed (i1 i2 i3 g ano : jsstring) :
    reachable (mkPlanner (seedData i1 i2 i3) (novoInicial g ano))
| reach_step (e : Event) (st st' : Planner) (log : list Notification) :
    reachable st -> handle e st = Normal (st', log) -> reachable st'.

Fixpoint run (es : list Event) (st : Planner) : option Planner :=
  match es with
  | [] => Some st
  | e :: rest =>
      match handle e st with
      | Normal (st', _) => run rest st'
      | _ => None
      end
  end.

(** A record counts for the index. *)
Definition qualifies (c : Course) : Prop :=
  status c <> ACursar /\ nota c <> NotaVazia.

(** The record passes [validateCourse] as it stands. *)
Definition aceita (c : Course) : Prop :=
  validateCourse (objOf c) = Normal ([], true).

(** Sample data: a planner fresh from the seed, drafts, patches. *)
Definition inicial : Planner :=
  mkPlanner (seedData (js "a1") (js "a2") (js "a3"))
            (novoInicial (js "n0") (js "2025")).

Definition curso (i : jsstring) (n : string) (h g : float) (s : Status)
  : Course :=
  mkCourse i (js n) h (NotaNum g) (js "2025.1") s.

Definition patchNota (x : float) : PartialCourse :=
  mkPartial None None None (Some (NotaNum x)) None None.
Definition patchCH (x : float) : PartialCourse :=
  mkPartial None None (Some x) None None None.

Definition cadastrar (n : jsstring) (h : float) (g : Nota) (s : Status)
           (g1 g2 : jsstring) : list Event :=
  [ EditNovo (mkPartial None (Some n) None None None None);
    EditNovo (mkPartial None None (Some h) None None None);
    EditNovo (mkPartial None None None (Some g) None None);
    EditNovo (mkPartial None None None None None (Some s));
    AddCourse g1 g2 ].

End Ieee.

(** * Properties *)

Unset Implicit Arguments.

(** ** Strings, statuses, objects *)

Lemma JsString_eqb_eq (a b : jsstring) : JsString.eqb a b = true <-> a = b.
Proof.
  unfold JsString.eqb.
  destruct (list_eq_dec N.eq_dec a b); split; congruence.
Qed.

Lemma JsString_eqb_neq (a b : jsstring) : JsString.eqb a b = false <-> a <> b.
Proof.
  unfold JsString.eqb.
  destruct (list_eq_dec N.eq_dec a b); split; congruence.
Qed.

Lemma JsString_eqb_refl (a : jsstring) : JsString.eqb a a = true.
Proof. now apply JsString_eqb_eq. Qed.

Lemma truthy_nonempty (s : jsstring) : JsString.truthy s = true <-> s <> [].
Proof. destruct s; simpl; split; congruence. Qed.

Lemma Status_eqb_eq (a b : Status) : Status_eqb a b = true <-> a = b.
Proof. destruct a, b; simpl; split; congruence. Qed.


Lemma complete_objOf (c : Course) : complete (objOf c) = Some c.
Proof. now destruct c. Qed.

Lemma spreadObj_objOf (c : Course) (patch : PartialCourse) :
  spreadObj (objOf c) patch = objOf (spread c patch).
Proof.
  destruct patch as [[?|] [?|] [?|] [?|] [?|] [?|]]; reflexivity.
Qed.

Lemma spreadObj_empty (patch : PartialCourse) :
  spreadObj emptyObj patch = patch.
Proof.
  destruct patch as [[?|] [?|] [?|] [?|] [?|] [?|]]; reflexivity.
Qed.


(** Storing complete records under a test that replaces some of them by a
    complete record is well typed, and is the [map] one expects. *)
Lemma completeAll_replace (p : Course -> bool) (u : Course) (cs : list Course) :
  completeAll (map (fun c => if p c then objOf u else objOf c) cs)
  = Some (map (fun c => if p c then u else c) cs).
Proof.
  induction cs as [|c cs IH]; simpl; [reflexivity|].
  rewrite IH. destruct (p c); now rewrite complete_objOf.
Qed.

(** When no record passes the test, whatever the replacement is, the stored
    list is the old one. *)
Lemma completeAll_untouched (p : Course -> bool) (o : PartialCourse)
      (cs : list Course) :
  (forall c, In c cs -> p c = false) ->
  completeAll (map (fun c => if p c then o else objOf c) cs) = Some cs.
Proof.
  induction cs as [|c cs IH]; simpl; intros Hp; [reflexivity|].
  rewrite (Hp c (or_introl eq_refl)), complete_objOf, IH; auto.
Qed.

Lemma find_absent (i : jsstring) (cs : list Course) :
  ~ In i (ids cs) ->
  find (fun c => JsString.eqb (id c) i) cs = None
  /\ forall c, In c cs -> JsString.eqb (id c) i = false.
Proof.
  intros H.
  assert (Hall : forall c, In c cs -> JsString.eqb (id c) i = false).
  { intros c Hc. apply JsString_eqb_neq. intros E. apply H.
    subst i. now apply in_map. }
  split; [|exact Hall].
  destruct (find _ cs) as [c|] eqn:F; [|reflexivity].
  apply find_some in F. destruct F as [Hin E].
  now rewrite (Hall c Hin) in E.
Qed.

Lemma find_present (i : jsstring) (cs : list Course) :
  In i (ids cs) ->
  exists c, find (fun c => JsString.eqb (id c) i) cs = Some c.
Proof.
  intros H. apply in_map_iff in H. destruct H as [c [E Hin]].
  destruct (find _ cs) as [c'|] eqn:F; [now exists c'|].
  exfalso. apply (find_none _ _ F) in Hin.
  now rewrite E, JsString_eqb_refl in Hin.
Qed.

(** ** Validation of a complete record *)

(** On a complete record [validateCourse] never throws: it accepts in
    silence or refuses with one toast of severity [error]. *)
Lemma validateCourse_complete (c : Course) :
  validateCourse (objOf c) = Normal ([], true)
  \/ exists msg,
       validateCourse (objOf c) = Normal ([mkNotification msg error], false).
Proof.
  unfold validateCourse; simpl.
  destruct (negb (JsString.truthy (JsString.trim (nome c)))); [right; eauto|].
  destruct (Qle_bool (ch c) 0); [right; eauto|].
  destruct (Status_eqb (status c) Cursada
            && (nota_vazia (nota c) || Qlt_bool (Number_ (nota c)) 0
                || Qlt_bool 10 (Number_ (nota c)))); [right; eauto|].
  destruct (negb (matchPeriodo (periodo c))); [right; eauto | now left].
Qed.

Lemma Qlt_bool_iff (x y : Q) : Qlt_bool x y = true <-> x < y.
Proof.
  unfold Qlt_bool. rewrite negb_true_iff.
  destruct (Qle_bool y x) eqn:E.
  - apply Qle_bool_iff in E. split; [discriminate | intros H; lra].
  - split; [intros _ | reflexivity].
    apply Qnot_le_lt. intros H. apply Qle_bool_iff in H. congruence.
Qed.

Lemma chNaoPositiva_iff (c : Course) :
  chNaoPositiva (Some (ch c)) = false <-> regraCH c.
Proof.
  unfold regraCH; simpl. destruct (Qle_bool (ch c) 0) eqn:E.
  - apply Qle_bool_iff in E. split; [discriminate | intros H; lra].
  - split; [intros _ | reflexivity].
    apply Qnot_le_lt. intros H. apply Qle_bool_iff in H. congruence.
Qed.

Lemma regraNome_iff (c : Course) :
  negb (JsString.truthy (JsString.trim (nome c))) = false <-> regraNome c.
Proof.
  unfold regraNome. rewrite negb_false_iff. apply truthy_nonempty.
Qed.

Lemma regraNota_iff (c : Course) :
  statusCursada (Some (status c)) && notaForaDaFaixa (Some (nota c)) = false
  <-> regraNota c.
Proof.
  unfold regraNota; simpl. split.
  - intros H Hs. rewrite Hs in H; simpl in H.
    destruct (nota c) as [|q]; simpl in H; [discriminate|].
    apply orb_false_iff in H. destruct H as [H0 H10].
    exists q. split; [reflexivity|]. split.
    + apply Qnot_lt_le. intros L. apply Qlt_bool_iff in L. congruence.
    + apply Qnot_lt_le. intros L. apply Qlt_bool_iff in L. congruence.
  - intros H. destruct (Status_eqb (status c) Cursada) eqn:Es; [|reflexivity].
    apply Status_eqb_eq in Es. destruct (H Es) as [q [Hq [H0 H10]]].
    rewrite Hq; simpl. apply orb_false_iff. split.
    + destruct (Qlt_bool q 0) eqn:L; [|reflexivity].
      apply Qlt_bool_iff in L. lra.
    + destruct (Qlt_bool 10 q) eqn:L; [|reflexivity].
      apply Qlt_bool_iff in L. lra.
Qed.

Lemma isDigit_iff (d : N) : JsString.isDigit d = true <-> (48 <= d <= 57)%N.
Proof.
  unfold JsString.isDigit. rewrite andb_true_iff, !N.leb_le. tauto.
Qed.

Lemma regraPeriodo_iff (c : Course) :
  matchPeriodo (periodo c) = true <-> regraPeriodo c.
Proof.
  unfold regraPeriodo, matchPeriodo. split.
  - destruct (periodo c) as [|d1 [|d2 [|d3 [|d4 [|dot [|s [|x r]]]]]]];
      try discriminate.
    rewrite !andb_true_iff, orb_true_iff, !N.eqb_eq, !isDigit_iff.
    intros [[[[[H1 H2] H3] H4] Hd] Hs]. subst dot.
    exists d1, d2, d3, d4, s. split; [reflexivity|]. split; [|exact Hs].
    repeat constructor; tauto.
  - intros (d1 & d2 & d3 & d4 & s & E & HF & Hs). rewrite E.
    inversion_clear HF as [|? ? H1 HF1]. inversion_clear HF1 as [|? ? H2 HF2].
    inversion_clear HF2 as [|? ? H3 HF3]. inversion_clear HF3 as [|? ? H4 _].
    rewrite !andb_true_iff, orb_true_iff, !N.eqb_eq, !isDigit_iff.
    tauto.
Qed.

(** ** Validation order *)

Lemma mensagens_distintas : NoDup [msgNome; msgCH; msgNota; msgPeriodo].
Proof.
  repeat constructor; simpl; intuition discriminate.
Qed.

(** The outcome of [validateCourse] on a complete record, read off the
    rules in their order. *)
Lemma validateCourse_by_rules (c : Course) :
  (~ regraNome c ->
   validateCourse (objOf c) = Normal ([mkNotification msgNome error], false))
  /\ (regraNome c -> ~ regraCH c ->
      validateCourse (objOf c) = Normal ([mkNotification msgCH error], false))
  /\ (regraNome c -> regraCH c -> ~ regraNota c ->
      validateCourse (objOf c) = Normal ([mkNotification msgNota error], false))
  /\ (regraNome c -> regraCH c -> regraNota c -> ~ regraPeriodo c ->
      validateCourse (objOf c)
      = Normal ([mkNotification msgPeriodo error], false))
  /\ (regraNome c -> regraCH c -> regraNota c -> regraPeriodo c ->
      validateCourse (objOf c) = Normal ([], true))
  /\ NoDup [msgNome; msgCH; msgNota; msgPeriodo].
Proof.
  pose proof (regraNome_iff c) as R1. pose proof (chNaoPositiva_iff c) as R2.
  pose proof (regraNota_iff c) as R3. pose proof (regraPeriodo_iff c) as R4.
  pose proof mensagens_distintas as D.
  unfold validateCourse.
  cbn [objOf p_nome p_ch p_status p_nota p_periodo].
  destruct (negb (JsString.truthy (JsString.trim (nome c))));
    [intuition congruence|].
  destruct (chNaoPositiva (Some (ch c))); [intuition congruence|].
  destruct (statusCursada (Some (status c))
            && notaForaDaFaixa (Some (nota c))); [intuition congruence|].
  destruct (matchPeriodo (periodo c)); simpl; intuition congruence.
Qed.




(** ** The weighted index *)






(** ** Scenarios of the specification *)

Example cenario_3 :
  addCourse (js "p3") (js "n1")
            (mkPlanner [fisica (js "p1")] (ruim (js "n0")))
  = Normal (mkPlanner [fisica (js "p1")] (ruim (js "n0")),
            [mkNotification msgCH error]).
Proof. reflexivity. Qed.

Example cenario_5 :
  update (js "p1") (mkPartial None None None (Some (NotaNum 11)) None None)
         (mkPlanner [fisica (js "p1")] (futura (js "n0")))
  = Normal (mkPlanner [fisica (js "p1")] (futura (js "n0")),
            [mkNotification msgNota error]).
Proof. reflexivity. Qed.

Example cenario_6 :
  remove (js "zz") (mkPlanner [fisica (js "p1")] (futura (js "n0")))
  = Normal (mkPlanner [fisica (js "p1")] (futura (js "n0")),
            [mkNotification msgRemovida success]).
Proof. reflexivity. Qed.

Example trim_blank : JsString.trim (js "  " ++ [160%N; 9%N]) = [].
Proof. reflexivity. Qed.

Example trim_inner : JsString.trim (js "  a b ") = js "a b".
Proof. reflexivity. Qed.

Example periodo_ok : matchPeriodo (js "2025.2") = true.
Proof. reflexivity. Qed.

Example periodo_semestre_3 : matchPeriodo (js "2025.3") = false.
Proof. reflexivity. Qed.

Example periodo_trailing_newline : matchPeriodo (js "2025.1" ++ [10%N]) = false.
Proof. reflexivity. Qed.

(** ** The course store: adding and removing *)

Lemma planner_eta (st : Planner) : mkPlanner (courses st) (novo st) = st.
Proof. now destruct st. Qed.

(** What [addCourse] does, by the verdict on the draft. *)
Lemma addCourse_cases (g1 g2 : jsstring) (st : Planner) :
  (validateCourse (objOf (novo st)) = Normal ([], true)
   /\ addCourse g1 g2 st
      = Normal (mkPlanner (withId (novo st) g1 :: courses st)
                          (mkCourse g2 [] 64 NotaVazia (periodo (novo st))
                                    ACursar),
                [mkNotification msgAdicionada success]))
  \/ (exists msg,
        validateCourse (objOf (novo st))
        = Normal ([mkNotification msg error], false)
        /\ addCourse g1 g2 st = Normal (st, [mkNotification msg error])).
Proof.
  unfold addCourse.
  destruct (validateCourse_complete (novo st)) as [E|[msg E]]; rewrite E.
  - left. now split.
  - right. exists msg. now split.
Qed.

(** C4, as the code has it.  [addCourse] is all or nothing, whatever
    identifiers [uuid()] returns.  When the draft passes validation, the
    collection becomes the old one with one record put in front: the draft
    with its identifier replaced by the one just drawn, which the code
    compares neither with the draft's nor with those of the collection;
    the draft row is reset and a success toast is emitted.  When the draft
    fails validation, the toast of the violated rule is emitted and the
    state is the one before. *)
Theorem addCourse_atomic (g1 g2 : jsstring) (st : Planner) :
  (exists r,
      validateCourse (objOf (novo st)) = Normal ([], true)
      /\ addCourse g1 g2 st
         = Normal (mkPlanner (r :: courses st)
                             (mkCourse g2 [] 64 NotaVazia (periodo (novo st))
                                       ACursar),
                   [mkNotification msgAdicionada success])
      /\ id r = g1
      /\ nome r = nome (novo st) /\ ch r = ch (novo st)
      /\ nota r = nota (novo st) /\ periodo r = periodo (novo st)
      /\ status r = status (novo st))
  \/ (exists msg,
        validateCourse (objOf (novo st))
        = Normal ([mkNotification msg error], false)
        /\ addCourse g1 g2 st = Normal (st, [mkNotification msg error])).
Proof.
  destruct (addCourse_cases g1 g2 st) as [[Hv Ha]|Hrej];
    [left|right; exact Hrej].
  exists (withId (novo st) g1). simpl. repeat split; auto.
Qed.

(** C4, as stated, fails: the identifier of the new record is the one
    [uuid()] returns, whatever it is.  With a draft whose identifier is
    "n0" and a draw that gives "n0" again, the record is added under the
    identifier of the draft. *)
Lemma addCourse_draws_draft_id :
  let st := mkPlanner (courses inicial) (fisica (js "n0")) in
  exists st',
    addCourse (js "n0") (js "n1") st
    = Normal (st', [mkNotification msgAdicionada success])
    /\ courses st' = fisica (js "n0") :: courses inicial
    /\ option_map id (hd_error (courses st')) = Some (id (novo st)).
Proof.
  eexists. split; [reflexivity|]. split; reflexivity.
Qed.

Lemma filter_fresh (g : jsstring) (cs : list Course) :
  ~ In g (ids cs) -> filter (fun c => negb (JsString.eqb (id c) g)) cs = cs.
Proof.
  induction cs as [|c l IH]; intros H; [reflexivity|]. simpl.
  assert (E : JsString.eqb (id c) g = false).
  { apply JsString_eqb_neq. intros E. apply H. now left. }
  rewrite E. simpl. f_equal. apply IH. intros Hin. apply H. now right.
Qed.

(** C7.  [remove] deletes every record that carries the identifier and
    keeps the others, in their order; it always completes normally, with a
    success toast and no error.  When no record carries the identifier the
    state is exactly the one before. *)
Theorem remove_by_id (i : jsstring) (st : Planner) :
  exists st',
    remove i st = Normal (st', [mkNotification msgRemovida success])
    /\ novo st' = novo st
    /\ (forall c, In c (courses st') <-> In c (courses st) /\ id c <> i)
    /\ courses st' = filter (fun c => negb (JsString.eqb (id c) i)) (courses st)
    /\ (~ In i (ids (courses st)) -> st' = st).
Proof.
  eexists. split; [reflexivity|]. simpl. split; [reflexivity|]. split; [|split].
  - intros c. rewrite filter_In, negb_true_iff, JsString_eqb_neq. tauto.
  - reflexivity.
  - intros Habs. destruct st as [cs nv]; simpl in *. f_equal.
    now apply filter_fresh.
Qed.

Lemma remove_by_id_witness :
  remove (js "zz") (mkPlanner [fisica (js "p1")] (futura (js "n0")))
  = Normal (mkPlanner [fisica (js "p1")] (futura (js "n0")),
            [mkNotification msgRemovida success]).
Proof.
  destruct (remove_by_id (js "zz")
              (mkPlanner [fisica (js "p1")] (futura (js "n0"))))
    as [st' [Hr [_ [_ [_ Hsame]]]]].
  rewrite Hr. rewrite Hsame; [reflexivity|].
  vm_compute. intros [H|[]]. discriminate.
Defined.

(** C8.  When the draft is valid and the identifier drawn for the new
    record is not yet used in the collection, [addCourse] followed by
    [remove] of that identifier gives back the collection as it was: the
    same records, in the same order. *)
Theorem add_then_remove (g1 g2 : jsstring) (st : Planner) :
  validateCourse (objOf (novo st)) = Normal ([], true) ->
  ~ In g1 (ids (courses st)) ->
  exists st1 log1 st2 log2,
    addCourse g1 g2 st = Normal (st1, log1)
    /\ option_map id (hd_error (courses st1)) = Some g1
    /\ remove g1 st1 = Normal (st2, log2)
    /\ courses st2 = courses st
    /\ (forall c, In c (courses st2) <-> In c (courses st)).
Proof.
  intros Hv Hfresh.
  destruct (addCourse_cases g1 g2 st) as [[_ Ha]|[msg [Hrej _]]];
    [|rewrite Hv in Hrej; discriminate].
  assert (E : filter (fun c => negb (JsString.eqb (id c) g1))
                     (withId (novo st) g1 :: courses st)
              = courses st).
  { simpl. rewrite JsString_eqb_refl. simpl. now apply filter_fresh. }
  do 4 eexists. split; [exact Ha|]. split; [reflexivity|].
  split; [reflexivity|]. simpl. rewrite JsString_eqb_refl. simpl.
  rewrite (filter_fresh _ _ Hfresh). split; [reflexivity|tauto].
Qed.

Lemma add_then_remove_witness :
  exists st1 log1 st2 log2,
    addCourse (js "p2") (js "n1")
              (mkPlanner [fisica (js "p1")] (calculo (js "n0")))
    = Normal (st1, log1)
    /\ remove (js "p2") st1 = Normal (st2, log2)
    /\ courses st2 = [fisica (js "p1")].
Proof.
  destruct (add_then_remove (js "p2") (js "n1")
              (mkPlanner [fisica (js "p1")] (calculo (js "n0"))))
    as (st1 & log1 & st2 & log2 & Ha & _ & Hr & Hc & _).
  - reflexivity.
  - vm_compute. intros [H|[]]. discriminate.
  - exists st1, log1, st2, log2. repeat split; assumption.
Defined.

(** C8, as stated, fails: when the identifier drawn for the new record is
    already carried by a record of the collection, [remove] of that
    identifier deletes both.  A valid draft is added to a collection of
    one record under the identifier of that record; after [remove] the
    collection is empty. *)
Lemma add_then_remove_loses_record :
  let st := mkPlanner [fisica (js "p1")] (calculo (js "n0")) in
  validateCourse (objOf (novo st)) = Normal ([], true)
  /\ run [AddCourse (js "p1") (js "n1"); Remove (js "p1")] st
     = Some (mkPlanner [] (mkCourse (js "n1") [] 64 NotaVazia (js "2025.1")
                                    ACursar))
  /\ courses st = [fisica (js "p1")].
Proof.
  split; [reflexivity|]. split; reflexivity.
Qed.

(** ** The course store: updating *)

(** The outcomes of [validateCourse] on any object, complete or not. *)
Lemma validateCourse_cases (o : PartialCourse) :
  validateCourse o = TypeError
  \/ validateCourse o = Normal ([], true)
  \/ exists msg, validateCourse o = Normal ([mkNotification msg error], false).
Proof.
  unfold validateCourse.
  destruct (p_nome o) as [n|]; [|now left].
  destruct (negb (JsString.truthy (JsString.trim n))); [right; right; eauto|].
  destruct (chNaoPositiva (p_ch o)); [right; right; eauto|].
  destruct (statusCursada (p_status o) && notaForaDaFaixa (p_nota o));
    [right; right; eauto|].
  destruct (p_periodo o) as [p|]; [|now left].
  destruct (negb (matchPeriodo p)); [right; right; eauto | right; now left].
Qed.

(** [update] on an identifier that no record carries: the object that is
    validated is the patch alone, and nothing is replaced. *)
Lemma update_absent (i : jsstring) (patch : PartialCourse) (st : Planner) :
  ~ In i (ids (courses st)) ->
  update i patch st
  = match validateCourse patch with
    | Normal (log, true) =>
        Normal (st, log ++ [mkNotification msgAtualizada success])
    | Normal (log, false) => Normal (st, log)
    | TypeError => TypeError
    | Untyped => Untyped
    end.
Proof.
  intros Habs. destruct (find_absent i (courses st) Habs) as [Hfind Hall].
  unfold update, found. rewrite Hfind, spreadObj_empty.
  destruct (validateCourse patch) as [[log [|]]| |]; try reflexivity.
  rewrite (completeAll_untouched _ patch (courses st) Hall).
  now rewrite planner_eta.
Qed.

(** [update] on an identifier that [find] resolves to [old]: the merged
    record is validated, and on success every record that carries the
    identifier is replaced by it. *)
Lemma update_present (i : jsstring) (patch : PartialCourse) (st : Planner)
      (old : Course) :
  find (fun c => JsString.eqb (id c) i) (courses st) = Some old ->
  update i patch st
  = match validateCourse (objOf (spread old patch)) with
    | Normal (log, true) =>
        Normal (mkPlanner
                  (map (fun c => if JsString.eqb (id c) i
                                 then spread old patch else c) (courses st))
                  (novo st),
                log ++ [mkNotification msgAtualizada success])
    | Normal (log, false) => Normal (st, log)
    | TypeError => TypeError
    | Untyped => Untyped
    end.
Proof.
  intros Hfind. unfold update, found. rewrite Hfind, spreadObj_objOf.
  destruct (validateCourse (objOf (spread old patch))) as [[log [|]]| |];
    try reflexivity.
  now rewrite completeAll_replace.
Qed.

(** The cast [as Course] in [update] never stores an incomplete object. *)
Lemma update_never_untyped (i : jsstring) (patch : PartialCourse)
      (st : Planner) :
  update i patch st <> Untyped.
Proof.
  destruct (find (fun c => JsString.eqb (id c) i) (courses st)) as [old|] eqn:F.
  - rewrite (update_present i patch st old F).
    destruct (validateCourse_complete (spread old patch)) as [E|[msg E]];
      rewrite E; discriminate.
  - assert (Habs : ~ In i (ids (courses st))).
    { intros Hin. destruct (find_present i (courses st) Hin) as [c Hc].
      congruence. }
    rewrite (update_absent i patch st Habs).
    destruct (validateCourse_cases patch) as [E|[E|[msg E]]];
      rewrite E; discriminate.
Qed.

(** C5, as the code has it.  There is no "not found" outcome.  On an
    identifier that no record carries, [update] validates the patch alone:
    it throws a [TypeError] when the patch has no [nome], or passes the
    first three rules and has no [periodo]; it emits the toast of the
    violated rule when the patch violates one; otherwise it emits the
    success toast.  In the three cases the state, and so the collection, is
    the one before. *)
Theorem update_absent_unchanged (i : jsstring) (patch : PartialCourse)
        (st : Planner) :
  ~ In i (ids (courses st)) ->
  (validateCourse patch = TypeError /\ update i patch st = TypeError)
  \/ (exists msg,
        validateCourse patch = Normal ([mkNotification msg error], false)
        /\ update i patch st = Normal (st, [mkNotification msg error]))
  \/ (validateCourse patch = Normal ([], true)
      /\ update i patch st
         = Normal (st, [mkNotification msgAtualizada success])).
Proof.
  intros Habs. rewrite (update_absent i patch st Habs).
  destruct (validateCourse_cases patch) as [E|[E|[msg E]]]; rewrite E.
  - left. now split.
  - right. right. now split.
  - right. left. exists msg. now split.
Qed.

Lemma update_absent_unchanged_witness :
  exists msg,
    update (js "zz") (mkPartial None (Some (js "  ")) None None None None)
           inicial
    = Normal (inicial, [mkNotification msg error]).
Proof.
  destruct (update_absent_unchanged (js "zz")
              (mkPartial None (Some (js "  ")) None None None None) inicial)
    as [[Hv _]|[[msg [_ Hu]]|[Hv _]]].
  - vm_compute. intuition discriminate.
  - vm_compute in Hv. discriminate.
  - exists msg. exact Hu.
  - vm_compute in Hv. discriminate.
Defined.

(** C5, as stated, fails: on an identifier that no record carries, a patch
    with a name and a term is reported as a successful update, and a patch
    with only the credit hours makes [update] throw. *)
Lemma update_absent_success_or_throw :
  ~ In (js "zz") (ids (courses inicial))
  /\ update (js "zz") (patchNomePeriodo (js "X") (js "2025.1")) inicial
     = Normal (inicial, [mkNotification msgAtualizada success])
  /\ update (js "zz") (patchCH 32) inicial = TypeError.
Proof.
  split; [|split].
  - vm_compute. intuition discriminate.
  - reflexivity.
  - reflexivity.
Qed.







(** ** Identifiers that are not unique

    The store compares identifiers and never checks that they are unique:
    it relies on [uuid()] for that.  This run shows what [update] does
    when two records share an identifier, which is why the statement above
    that speaks of "the" record of an identifier assumes that identifiers
    are unique. *)

Example update_shared_id :
  update (js "p1") (patchNota 9)
         (mkPlanner [fisica (js "p1"); calculo (js "p1")] (futura (js "n0")))
  = Normal (mkPlanner [spread (fisica (js "p1")) (patchNota 9);
                       spread (fisica (js "p1")) (patchNota 9)]
                      (futura (js "n0")),
            [mkNotification msgAtualizada success]).
Proof. reflexivity. Qed.

(** ** Reachable states *)

Lemma reachable_run (es : list Event) (st st' : Planner) :
  reachable st -> run es st = Some st' -> reachable st'.
Proof.
  revert st. induction es as [|e es IH]; simpl; intros st Hr.
  - now intros [= <-].
  - destruct (handle e st) as [[st1 log]| |] eqn:H; try discriminate.
    apply IH. exact (@reach_step e st st1 log Hr H).
Qed.

(** ** Grades outside the range *)

Lemma accepted_without_nota_rule (c : Course) :
  status c <> Cursada -> regraNome c -> regraCH c -> regraPeriodo c ->
  validateCourse (objOf c) = Normal ([], true).
Proof.
  intros Hs H1 H2 H4.
  apply (proj1 (proj2 (proj2 (proj2 (proj2
           (validateCourse_by_rules c)))))); try assumption.
  intros Hc. contradiction.
Qed.

(** C10.  The range of the grade is only checked on a record whose status
    is "Cursada".  A record with another status that has a name, positive
    credit hours and a well-formed term is accepted whatever its grade is.
    [addCourse] commits such a draft: it becomes the first record.
    [update] commits such a grade on an existing record: the record is
    replaced, where it stands, by itself with the new grade, and nothing
    else changes.  A record in progress with a grade counts for the index,
    so the index of a collection that the store reaches can be above 10 or
    below 0. *)
Theorem nota_unchecked_unless_cursada :
  (forall c,
      status c <> Cursada -> regraNome c -> regraCH c -> regraPeriodo c ->
      validateCourse (objOf c) = Normal ([], true))
  /\ (forall g1 g2 st,
        status (novo st) <> Cursada -> regraNome (novo st) ->
        regraCH (novo st) -> regraPeriodo (novo st) ->
        exists st', addCourse g1 g2 st
                    = Normal (st', [mkNotification msgAdicionada success])
                    /\ courses st' = withId (novo st) g1 :: courses st)
  /\ (forall i q st old,
        find (fun c => JsString.eqb (id c) i) (courses st) = Some old ->
        status old <> Cursada -> regraNome old -> regraCH old ->
        regraPeriodo old ->
        exists st' novoReg,
          update i (patchNota q) st
          = Normal (st', [mkNotification msgAtualizada success])
          /\ novo st' = novo st
          /\ courses st'
             = map (fun c => if JsString.eqb (id c) i then novoReg else c)
                   (courses st)
          /\ In novoReg (courses st')
          /\ nota novoReg = NotaNum q
          /\ id novoReg = id old /\ nome novoReg = nome old
          /\ ch novoReg = ch old /\ periodo novoReg = periodo old
          /\ status novoReg = status old)
  /\ (forall c q,
        status c = EmAndamento -> nota c = NotaNum q -> concluida c = true)
  /\ (exists st, reachable st /\ 10 < calcIRA (courses st))
  /\ (exists st, reachable st /\ calcIRA (courses st) < 0).
Proof.
  split; [exact accepted_without_nota_rule|].
  split; [|split; [|split; [|split]]].
  - intros g1 g2 st Hs H1 H2 H4.
    destruct (addCourse_cases g1 g2 st) as [[_ Ha]|[msg [Hrej _]]].
    + eexists. split; [exact Ha|reflexivity].
    + rewrite (accepted_without_nota_rule (novo st) Hs H1 H2 H4) in Hrej.
      discriminate.
  - intros i q st old Hfind Hs H1 H2 H4.
    rewrite (update_present i (patchNota q) st old Hfind).
    assert (V : validateCourse (objOf (spread old (patchNota q)))
                = Normal ([], true)).
    { apply accepted_without_nota_rule; assumption. }
    rewrite V. eexists. exists (spread old (patchNota q)).
    split; [reflexivity|]. split; [reflexivity|]. split; [reflexivity|].
    split; [|repeat split].
    cbn [courses]. apply in_map_iff. exists old.
    apply find_some in Hfind. destruct Hfind as [Hin E]. rewrite E. now split.
  - intros c q Hs Hn. unfold concluida. now rewrite Hs, Hn.
  - eexists. split.
    + apply (reachable_run
               (cadastrar (js "Lab") 64 (NotaNum 100) EmAndamento
                          (js "b1") (js "n1")) inicial);
        [|vm_compute; reflexivity].
      exact (reach_seed (js "a1") (js "a2") (js "a3") (js "n0") (js "2025")).
    + reflexivity.
  - eexists. split.
    + apply (reachable_run
               (cadastrar (js "Lab") 64 (NotaNum (-100)) EmAndamento
                          (js "b1") (js "n1")) inicial);
        [|vm_compute; reflexivity].
      exact (reach_seed (js "a1") (js "a2") (js "a3") (js "n0") (js "2025")).
    + reflexivity.
Qed.

Example indice_acima_de_10 :
  exists st,
    run (cadastrar (js "Lab") 64 (NotaNum 100) EmAndamento (js "b1") (js "n1"))
        inicial = Some st
    /\ calcIRA (courses st) == 61 # 2.
Proof. eexists. split; [vm_compute; reflexivity|reflexivity]. Qed.

(** An out-of-range grade committed by [update] on the record in progress
    of the seed: the record is there, where it stood, with grade 11. *)
Lemma nota_unchecked_unless_cursada_witness :
  exists st' novoReg,
    update (js "a2") (patchNota 11) inicial
    = Normal (st', [mkNotification msgAtualizada success])
    /\ In novoReg (courses st')
    /\ nota novoReg = NotaNum 11
    /\ List.length (courses st') = 3%nat.
Proof.
  destruct (proj1 (proj2 (proj2 nota_unchecked_unless_cursada))
              (js "a2") 11 inicial
              (mkCourse (js "a2")
                 (js "Qu" ++ [237%N] ++ js "mica Anal" ++ [237%N]
                  ++ js "tica (CLAE)")
                 64 (NotaNum 8) (js "2025.2") EmAndamento))
    as (st' & r & Hu & _ & Hc & Hin & Hn & _).
  - reflexivity.
  - discriminate.
  - unfold regraNome. vm_compute. discriminate.
  - unfold regraCH. vm_compute. reflexivity.
  - exists 50%N, 48%N, 50%N, 53%N, 50%N. split; [reflexivity|].
    split; [|now right]. repeat constructor; lia.
  - exists st', r. split; [exact Hu|]. split; [exact Hin|].
    split; [exact Hn|]. rewrite Hc. now rewrite length_map.
Defined.

(** * Further properties of the store and of the index *)

(** ** Every stored record is valid *)

Lemma accepted_valida (c : Course) (log : list Notification) :
  validateCourse (objOf c) = Normal (log, true) -> valida c.
Proof.
  pose proof (regraNome_iff c) as R1. pose proof (chNaoPositiva_iff c) as R2.
  pose proof (regraNota_iff c) as R3. pose proof (regraPeriodo_iff c) as R4.
  unfold valida, validateCourse.
  cbn [objOf p_nome p_ch p_status p_nota p_periodo].
  destruct (negb (JsString.truthy (JsString.trim (nome c)))); [discriminate|].
  destruct (chNaoPositiva (Some (ch c))); [discriminate|].
  destruct (statusCursada (Some (status c))
            && notaForaDaFaixa (Some (nota c))); [discriminate|].
  destruct (matchPeriodo (periodo c)); simpl; [|discriminate].
  intros _. intuition.
Qed.

Lemma valida_accepted (c : Course) :
  valida c -> validateCourse (objOf c) = Normal ([], true).
Proof.
  intros (H1 & H2 & H3 & H4).
  now apply (proj1 (proj2 (proj2 (proj2 (proj2 (validateCourse_by_rules c)))))).
Qed.

(** X4.  A record that does not count, because its status is "A cursar" or
    because it has no grade, has no influence on the index, wherever it
    stands in the collection; in particular adding such a draft leaves the
    index as it was. *)
Theorem calcIRA_skips_unqualified :
  (forall (l1 l2 : list Course) (c : Course),
      status c = ACursar \/ nota c = NotaVazia ->
      calcIRA (l1 ++ c :: l2) = calcIRA (l1 ++ l2))
  /\ (forall g1 g2 st st' log,
        status (novo st) = ACursar \/ nota (novo st) = NotaVazia ->
        addCourse g1 g2 st = Normal (st', log) ->
        calcIRA (courses st') = calcIRA (courses st)).
Proof.
  assert (Hskip : forall c, status c = ACursar \/ nota c = NotaVazia ->
                            concluida c = false).
  { intros c [H|H]; unfold concluida; rewrite H; simpl;
      [reflexivity | apply andb_false_r]. }
  split.
  - intros l1 l2 c Hc. unfold calcIRA.
    rewrite !filter_app. simpl. now rewrite (Hskip c Hc).
  - intros g1 g2 st st' log Hc Ha.
    destruct (addCourse_cases g1 g2 st) as [[_ E]|[msg [_ E]]];
      rewrite E in Ha; injection Ha as <- _; [|reflexivity].
    simpl. unfold calcIRA. simpl.
    assert (Hw : concluida (withId (novo st) g1) = false)
      by (apply Hskip; exact Hc).
    now rewrite Hw.
Qed.

Lemma calcIRA_skips_unqualified_witness :
  calcIRA ([calculo (js "p2")] ++ futura (js "p4") :: [fisica (js "p1")])
  = calcIRA ([calculo (js "p2")] ++ [fisica (js "p1")]).
Proof.
  apply (proj1 calcIRA_skips_unqualified). now left.
Defined.

(** ** How the operations compose *)

Lemma filter_idem {A : Type} (p : A -> bool) (l : list A) :
  filter p (filter p l) = filter p l.
Proof.
  induction l as [|a l IH]; [reflexivity|]. simpl.
  destruct (p a) eqn:E; [|exact IH]. simpl. now rewrite E, IH.
Qed.

Lemma filter_comm {A : Type} (p q : A -> bool) (l : list A) :
  filter p (filter q l) = filter q (filter p l).
Proof.
  induction l as [|a l IH]; [reflexivity|]. simpl.
  destruct (q a) eqn:Eq, (p a) eqn:Ep; simpl; rewrite ?Eq, ?Ep, IH;
    reflexivity.
Qed.

(** X5.  Removing an identifier twice is removing it once, and two
    removals can be done in either order. *)
Theorem remove_idempotent_commutes (i j : jsstring) (st : Planner) :
  run [Remove i; Remove i] st = run [Remove i] st
  /\ run [Remove i; Remove j] st = run [Remove j; Remove i] st.
Proof.
  simpl. split.
  - now rewrite filter_idem.
  - now rewrite filter_comm.
Qed.

Lemma update_outcome (i : jsstring) (patch : PartialCourse) (st st' : Planner)
      (log : list Notification) :
  update i patch st = Normal (st', log) ->
  (st' = st \/ exists old,
      find (fun c => JsString.eqb (id c) i) (courses st) = Some old
      /\ st' = mkPlanner (map (fun c => if JsString.eqb (id c) i
                                        then spread old patch else c)
                              (courses st)) (novo st))
  /\ exists n, log = [n].
Proof.
  destruct (find (fun c => JsString.eqb (id c) i) (courses st))
    as [old|] eqn:F.
  - rewrite (update_present i patch st old F).
    destruct (validateCourse_complete (spread old patch)) as [E|[msg E]];
      rewrite E; intros [= <- <-]; (split; [|eexists; reflexivity]).
    + right. exists old. now split.
    + now left.
  - assert (Habs : ~ In i (ids (courses st))).
    { intros Hin. destruct (find_present i (courses st) Hin) as [c Hc].
      congruence. }
    rewrite (update_absent i patch st Habs).
    destruct (validateCourse_cases patch) as [E|[E|[msg E]]]; rewrite E;
      try discriminate; intros [= <- <-];
      (split; [now left | eexists; reflexivity]).
Qed.

Lemma ids_replace (i : jsstring) (u : Course) (cs : list Course) :
  id u = i ->
  ids (map (fun c => if JsString.eqb (id c) i then u else c) cs) = ids cs.
Proof.
  intros Hu. unfold ids. rewrite map_map. apply map_ext_in. intros c _.
  destruct (JsString.eqb (id c) i) eqn:E; [|reflexivity].
  apply JsString_eqb_eq in E. congruence.
Qed.

Lemma update_ids (i : jsstring) (patch : PartialCourse) (st st' : Planner)
      (log : list Notification) :
  p_id patch = None ->
  update i patch st = Normal (st', log) ->
  ids (courses st') = ids (courses st).
Proof.
  intros Hp H. destruct (update_outcome i patch st st' log H) as [[->|Hrep] _];
    [reflexivity|].
  destruct Hrep as [old [F ->]]. simpl. apply ids_replace.
  unfold spread; simpl. rewrite Hp.
  apply find_some in F. now apply JsString_eqb_eq.
Qed.

(** X6.  [update] never adds or drops a record.  On an identifier that a
    record carries it always completes, with exactly one toast.  Whenever
    it completes, the collection has the length it had, the draft is
    untouched, the records with another identifier are still there, and
    when the patch carries no identifier the identifiers are the same, in
    the same order. *)
Theorem update_keeps_shape (i : jsstring) (patch : PartialCourse)
        (st : Planner) :
  (In i (ids (courses st)) ->
   exists st' n, update i patch st = Normal (st', [n]))
  /\ (forall st' log,
        update i patch st = Normal (st', log) ->
        List.length (courses st') = List.length (courses st)
        /\ novo st' = novo st
        /\ (forall c, In c (courses st) -> id c <> i -> In c (courses st'))
        /\ (p_id patch = None -> ids (courses st') = ids (courses st))).
Proof.
  split.
  - intros Hin. destruct (find_present i (courses st) Hin) as [old F].
    rewrite (update_present i patch st old F).
    destruct (validateCourse_complete (spread old patch)) as [E|[msg E]];
      rewrite E; do 2 eexists; reflexivity.
  - intros st' log H. split; [|split; [|split]].
    + destruct (update_outcome i patch st st' log H) as [[->|[old [_ ->]]] _];
        [reflexivity|]. simpl. apply length_map.
    + destruct (update_outcome i patch st st' log H) as [[->|[old [_ ->]]] _];
        reflexivity.
    + intros c Hc Hid.
      destruct (update_outcome i patch st st' log H) as [[->|[old [_ ->]]] _];
        [exact Hc|]. simpl. apply in_map_iff. exists c. split; [|exact Hc].
      apply JsString_eqb_neq in Hid. now rewrite Hid.
    + intros Hp. exact (update_ids i patch st st' log Hp H).
Qed.

Lemma update_keeps_shape_witness :
  exists st' n,
    update (js "a2") (patchNota 9) inicial = Normal (st', [n])
    /\ ids (courses st') = ids (courses inicial).
Proof.
  destruct (update_keeps_shape (js "a2") (patchNota 9) inicial) as [Hex Hsh].
  destruct Hex as [st' [n Hu]].
  - vm_compute. right. left. reflexivity.
  - exists st', n. split; [exact Hu|].
    destruct (Hsh st' [n] Hu) as (_ & _ & _ & Hids). now apply Hids.
Defined.

Lemma ids_filter_NoDup (p : Course -> bool) (cs : list Course) :
  NoDup (ids cs) -> NoDup (ids (filter p cs)).
Proof.
  induction cs as [|c l IH]; simpl; intros H; [constructor|].
  inversion_clear H as [|? ? Hnot Hnd].
  destruct (p c); [|now apply IH]. simpl. constructor; [|now apply IH].
  intros Hin. apply Hnot. unfold ids in *. apply in_map_iff in Hin.
  destruct Hin as [d [Hd Hf]]. apply filter_In in Hf.
  apply in_map_iff. exists d. tauto.
Qed.

(** X7.  Unique identifiers stay unique: an event keeps the identifiers of
    the collection pairwise distinct provided that the identifier drawn by
    [addCourse] is not in use and that a patch of [update] carries no
    identifier.  [remove] and the edits of the draft need no condition. *)
Theorem unique_ids_preserved (e : Event) (st st' : Planner)
        (log : list Notification) :
  NoDup (ids (courses st)) ->
  preservaIds e st ->
  handle e st = Normal (st', log) ->
  NoDup (ids (courses st')).
Proof.
  intros Hnd Hsafe. destruct e as [patch|g1 g2|i patch|i]; simpl in *.
  - now intros [= <- _].
  - intros Ha.
    destruct (addCourse_cases g1 g2 st) as [[_ E]|[msg [_ E]]];
      rewrite E in Ha; injection Ha as <- _; [|exact Hnd].
    simpl. now constructor.
  - intros Hu. now rewrite (update_ids i patch st st' log Hsafe Hu).
  - intros [= <- _]. simpl. now apply ids_filter_NoDup.
Qed.

Lemma unique_ids_preserved_witness :
  NoDup (ids (withId (fisica (js "n0")) (js "b1") :: courses inicial)).
Proof.
  apply (unique_ids_preserved (AddCourse (js "b1") (js "n1"))
           (mkPlanner (courses inicial) (fisica (js "n0")))
           (mkPlanner (withId (fisica (js "n0")) (js "b1") :: courses inicial)
                      (mkCourse (js "n1") [] 64 NotaVazia (js "2025.1")
                                ACursar))
           [mkNotification msgAdicionada success]).
  - vm_compute. repeat constructor; simpl; intuition discriminate.
  - vm_compute. intuition discriminate.
  - reflexivity.
Defined.

Lemma find_map_replace (p : Course -> bool) (u old : Course)
      (l : list Course) :
  p u = true -> find p l = Some old ->
  find p (map (fun c => if p c then u else c) l) = Some u.
Proof.
  intros Hu. induction l as [|c l IH]; simpl; [discriminate|].
  destruct (p c) eqn:E; simpl.
  - intros _. now rewrite Hu.
  - rewrite E. exact IH.
Qed.

Lemma map_replace_idem (p : Course -> bool) (u : Course) (l : list Course) :
  p u = true ->
  map (fun c => if p c then u else c) (map (fun c => if p c then u else c) l)
  = map (fun c => if p c then u else c) l.
Proof.
  intros Hu. rewrite map_map. apply map_ext. intros c.
  destruct (p c) eqn:E; [now rewrite Hu | now rewrite E].
Qed.

Lemma spread_idem (c : Course) (patch : PartialCourse) :
  spread (spread c patch) patch = spread c patch.
Proof.
  destruct patch as [[?|] [?|] [?|] [?|] [?|] [?|]]; reflexivity.
Qed.

(** X8.  Sending the same patch twice to the same identifier gives the
    state that sending it once gives, when the patch carries no
    identifier. *)
Theorem update_idempotent (i : jsstring) (patch : PartialCourse)
        (st : Planner) :
  p_id patch = None ->
  run [Update i patch; Update i patch] st = run [Update i patch] st.
Proof.
  intros Hp. cbn [run handle].
  destruct (find (fun c => JsString.eqb (id c) i) (courses st))
    as [old|] eqn:F.
  - set (p := fun c => JsString.eqb (id c) i) in *.
    set (u := spread old patch).
    assert (Hu : p u = true).
    { unfold p, u, spread; simpl. rewrite Hp.
      apply find_some in F. tauto. }
    rewrite (update_present i patch st old F). fold u.
    destruct (validateCourse_complete u) as [E|[msg E]]; rewrite E.
    + set (st1 := mkPlanner (map (fun c => if p c then u else c) (courses st))
                            (novo st)).
      assert (F1 : find (fun c => JsString.eqb (id c) i) (courses st1)
                   = Some u)
        by exact (find_map_replace p u old (courses st) Hu F).
      cbn [app].
      change (match update i patch st1 with
              | Normal (st', _) => Some st'
              | _ => None
              end = Some st1).
      rewrite (update_present i patch st1 u F1).
      replace (spread u patch) with u by (symmetry; apply spread_idem).
      rewrite E. unfold st1. cbn [courses novo app].
      change (fun c : Course => if JsString.eqb (id c) i then u else c)
        with (fun c : Course => if p c then u else c).
      now rewrite (map_replace_idem p u _ Hu).
    + rewrite (update_present i patch st old F). fold u. now rewrite E.
  - assert (Habs : ~ In i (ids (courses st))).
    { intros Hin. destruct (find_present i (courses st) Hin) as [c Hc].
      congruence. }
    rewrite (update_absent i patch st Habs).
    destruct (validateCourse_cases patch) as [E|[E|[msg E]]]; rewrite E;
      try reflexivity; simpl; now rewrite (update_absent i patch st Habs), E.
Qed.

Lemma update_idempotent_witness :
  run [Update (js "a2") (patchNota 9); Update (js "a2") (patchNota 9)] inicial
  = run [Update (js "a2") (patchNota 9)] inicial.
Proof.
  apply (update_idempotent (js "a2") (patchNota 9) inicial). reflexivity.
Defined.

(** X9.  After a course is added the draft row starts again: no name, 64
    hours, no grade, status "A cursar", the term of the course just added
    and the second identifier drawn.  Pressing the button again at once
    adds nothing and asks for a name; typing a name that is not blank is
    enough for the next course to be accepted, with those defaults. *)
Theorem addCourse_resets_draft (g1 g2 g3 g4 : jsstring) (st : Planner) :
  validateCourse (objOf (novo st)) = Normal ([], true) ->
  exists st1,
    addCourse g1 g2 st = Normal (st1, [mkNotification msgAdicionada success])
    /\ novo st1 = mkCourse g2 [] 64 NotaVazia (periodo (novo st)) ACursar
    /\ addCourse g3 g4 st1 = Normal (st1, [mkNotification msgNome error])
    /\ (forall n, JsString.trim n <> [] ->
        exists st3,
          run [EditNovo (mkPartial None (Some n) None None None None);
               AddCourse g3 g4] st1 = Some st3
          /\ courses st3
             = mkCourse g3 n 64 NotaVazia (periodo (novo st)) ACursar
               :: courses st1).
Proof.
  intros Hv.
  destruct (addCourse_cases g1 g2 st) as [[_ Ha]|[msg [Hrej _]]];
    [|rewrite Hv in Hrej; discriminate].
  eexists. split; [exact Ha|]. split; [reflexivity|]. split; [reflexivity|].
  intros n Hn. cbn [run handle editNovo].
  set (d := spread _ _).
  assert (Hd : validateCourse (objOf d) = Normal ([], true)).
  { apply valida_accepted.
    destruct (accepted_valida (novo st) [] Hv) as (_ & _ & _ & H4).
    split; [exact Hn|]. split; [|split; [|exact H4]].
    - unfold regraCH, d. simpl. reflexivity.
    - unfold regraNota, d. simpl. discriminate. }
  unfold addCourse. cbn [novo courses]. rewrite Hd.
  eexists. split; reflexivity.
Qed.

Lemma addCourse_resets_draft_witness :
  exists st1,
    addCourse (js "p1") (js "n1") (vazio (fisica (js "n0")))
    = Normal (st1, [mkNotification msgAdicionada success])
    /\ addCourse (js "p2") (js "n2") st1
       = Normal (st1, [mkNotification msgNome error]).
Proof.
  destruct (addCourse_resets_draft (js "p1") (js "n1") (js "p2") (js "n2")
              (vazio (fisica (js "n0")))) as (st1 & Ha & _ & Hb & _).
  - reflexivity.
  - exists st1. now split.
Defined.

(** ** The counters *)

Lemma contar_cons (s : Status) (c : Course) (cs : list Course) :
  contar s (c :: cs)
  = ((if Status_eqb (status c) s then 1 else 0) + contar s cs)%nat.
Proof.
  unfold contar; simpl. now destruct (Status_eqb (status c) s).
Qed.

(** X10.  The three counters of the planning tab split the collection:
    courses done, in progress and planned add up to the number of records.
    A course that is added moves the counter of its status by one and
    leaves the two others as they were; a refused draft moves none. *)
Theorem counters_partition :
  (forall cs,
      (concluidas cs + andamento cs + futuras cs)%nat = List.length cs)
  /\ (forall g1 g2 st st' log s,
        addCourse g1 g2 st = Normal (st', log) ->
        (validateCourse (objOf (novo st)) = Normal ([], true) ->
         contar s (courses st')
         = ((if Status_eqb (status (novo st)) s then 1 else 0)
            + contar s (courses st))%nat)
        /\ (validateCourse (objOf (novo st)) <> Normal ([], true) ->
            contar s (courses st') = contar s (courses st))).
Proof.
  split.
  - intros cs. unfold concluidas, andamento, futuras.
    induction cs as [|c l IH]; [reflexivity|].
    rewrite !contar_cons. simpl List.length.
    destruct (status c); simpl; lia.
  - intros g1 g2 st st' log s Ha.
    destruct (addCourse_cases g1 g2 st) as [[V E]|[msg [V E]]];
      rewrite E in Ha; injection Ha as <- <-.
    + split; [|intros H; contradiction].
      intros _. cbn [courses]. now rewrite contar_cons.
    + split; [|reflexivity]. intros H. rewrite H in V. discriminate.
Qed.

Lemma counters_partition_witness :
  concluidas (withId (fisica (js "n0")) (js "b1") :: courses inicial)
  = (1 + concluidas (courses inicial))%nat.
Proof.
  exact (proj1 (proj2 counters_partition (js "b1") (js "n1")
           (mkPlanner (courses inicial) (fisica (js "n0")))
           (mkPlanner (withId (fisica (js "n0")) (js "b1") :: courses inicial)
                      (mkCourse (js "n1") [] 64 NotaVazia (js "2025.1")
                                ACursar))
           [mkNotification msgAdicionada success] Cursada eq_refl) eq_refl).
Defined.

(** ** When validation throws *)

(** X11.  [validateCourse] throws only on an object that lacks the name
    or the term: it throws on any object without a name, it never accepts
    an object without a term, and on a complete record it always returns,
    with at most one toast. *)
Theorem validateCourse_throws (o : PartialCourse) :
  (validateCourse o = TypeError -> p_nome o = None \/ p_periodo o = None)
  /\ (p_nome o = None -> validateCourse o = TypeError)
  /\ (p_periodo o = None -> validateCourse o <> Normal ([], true))
  /\ (forall c, o = objOf c ->
        validateCourse o = Normal ([], true)
        \/ exists msg,
             validateCourse o = Normal ([mkNotification msg error], false)).
Proof.
  split; [|split; [|split]].
  - unfold validateCourse.
    destruct (p_nome o) as [n|]; [|now left].
    destruct (negb (JsString.truthy (JsString.trim n))); [discriminate|].
    destruct (chNaoPositiva (p_ch o)); [discriminate|].
    destruct (statusCursada (p_status o) && notaForaDaFaixa (p_nota o));
      [discriminate|].
    destruct (p_periodo o) as [p|]; [|now right].
    destruct (negb (matchPeriodo p)); discriminate.
  - intros H. unfold validateCourse. now rewrite H.
  - intros H. unfold validateCourse. rewrite H.
    destruct (p_nome o) as [n|]; [|discriminate].
    destruct (negb (JsString.truthy (JsString.trim n))); [discriminate|].
    destruct (chNaoPositiva (p_ch o)); [discriminate|].
    destruct (statusCursada (p_status o) && notaForaDaFaixa (p_nota o));
      discriminate.
  - intros c ->. apply validateCourse_complete.
Qed.

Lemma validateCourse_throws_witness :
  validateCourse (patchCH 32) = TypeError.
Proof.
  apply (proj1 (proj2 (validateCourse_throws (patchCH 32)))). reflexivity.
Defined.

(** * The toasts *)

Lemma toast_filter_fresh (g : jsstring) (l : list Toast) :
  ~ In g (map t_id l) -> removeNotification g l = l.
Proof.
  unfold removeNotification.
  induction l as [|n l IH]; intros H; [reflexivity|]. simpl.
  assert (E : JsString.eqb (t_id n) g = false).
  { apply JsString_eqb_neq. intros E. apply H. now left. }
  rewrite E. simpl. f_equal. apply IH. intros Hin. apply H. now right.
Qed.

(** X12.  [addNotification] puts the toast after the ones already there,
    with the identifier drawn, the message given, and the type given or
    "info" when none is.  Closing it, or letting its timer run out, gives
    back the list of before when its identifier is not the one of an older
    toast; and removing an identifier that no toast carries changes
    nothing. *)
Theorem toast_add_then_remove (g : jsstring) (msg : string)
        (ty : option Severity) (prev : list Toast) :
  (exists n,
      addNotification g msg ty prev = prev ++ [n]
      /\ t_id n = g /\ t_message n = msg
      /\ t_type n = match ty with Some t => t | None => info end)
  /\ (~ In g (map t_id prev) ->
      removeNotification g (addNotification g msg ty prev) = prev
      /\ removeNotification g prev = prev).
Proof.
  split.
  - eexists. split; [reflexivity|]. repeat split.
  - intros Hfresh. split.
    + unfold addNotification, removeNotification. rewrite filter_app. simpl.
      rewrite JsString_eqb_refl. simpl. rewrite app_nil_r.
      exact (toast_filter_fresh g prev Hfresh).
    + exact (toast_filter_fresh g prev Hfresh).
Qed.

Lemma toast_add_then_remove_witness :
  removeNotification (js "t2")
    (addNotification (js "t2") msgCH (Some error)
       [mkToast (js "t1") msgAdicionada success])
  = [mkToast (js "t1") msgAdicionada success].
Proof.
  apply (proj2 (toast_add_then_remove (js "t2") msgCH (Some error)
                  [mkToast (js "t1") msgAdicionada success])).
  vm_compute. intuition discriminate.
Defined.

(** X13.  The timer of a toast and the close button do the same removal,
    and a removal done twice is done once: a timer that runs out after the
    toast was closed by hand changes nothing.  Removals commute, a removal
    leaves no toast with the identifier, and it keeps every toast that has
    another identifier, also those added in between. *)
Theorem toast_removal (i j : jsstring) (l : list Toast) :
  removeNotification i (removeNotification i l) = removeNotification i l
  /\ removeNotification i (removeNotification j l)
     = removeNotification j (removeNotification i l)
  /\ ~ In i (map t_id (removeNotification i l))
  /\ (forall n, In n (removeNotification i l) <-> In n l /\ t_id n <> i)
  /\ (forall g msg ty,
        g <> i ->
        removeNotification i (addNotification g msg ty l)
        = addNotification g msg ty (removeNotification i l)).
Proof.
  unfold removeNotification. split; [|split; [|split; [|split]]].
  - apply filter_idem.
  - apply filter_comm.
  - intros Hin. apply in_map_iff in Hin. destruct Hin as [n [Hn Hf]].
    apply filter_In in Hf. destruct Hf as [_ Hf].
    rewrite negb_true_iff in Hf. apply JsString_eqb_neq in Hf. contradiction.
  - intros n. rewrite filter_In, negb_true_iff, JsString_eqb_neq. tauto.
  - intros g msg ty Hg. unfold addNotification. rewrite filter_app. simpl.
    apply JsString_eqb_neq in Hg. now rewrite Hg.
Qed.

Lemma toast_removal_witness :
  removeNotification (js "t1")
    (addNotification (js "t2") msgCH None
       [mkToast (js "t1") msgAdicionada success])
  = addNotification (js "t2") msgCH None [].
Proof.
  apply (proj2 (proj2 (proj2 (proj2
           (toast_removal (js "t1") (js "t1")
              [mkToast (js "t1") msgAdicionada success]))))).
  discriminate.
Defined.

(** * Patterns *)

Lemma lang_nil_nullable (r : Regex.t) (s : list N) :
  Regex.lang r s -> s = [] -> Regex.nullable r = true.
Proof.
  induction 1 as [|p c Hp|a b s1 s2 _ IH1 _ IH2|a b s _ IH|a b s _ IH
                  |a|a s1 s2 _ _ _ _]; intros E; simpl; try reflexivity.
  - discriminate.
  - apply app_eq_nil in E. destruct E as [E1 E2].
    now rewrite (IH1 E1), (IH2 E2).
  - now rewrite (IH E).
  - rewrite (IH E). apply orb_true_r.
Qed.

Lemma nullable_lang_nil (r : Regex.t) :
  Regex.nullable r = true -> Regex.lang r [].
Proof.
  induction r as [| |p|a IHa b IHb|a IHa b IHb|a IHa]; simpl; intros H;
    try discriminate.
  - constructor.
  - apply andb_true_iff in H. destruct H as [Ha Hb].
    exact (@Regex.lang_cat a b [] [] (IHa Ha) (IHb Hb)).
  - apply orb_true_iff in H. destruct H as [H|H];
      [apply Regex.lang_alt_l | apply Regex.lang_alt_r]; auto.
  - constructor.
Qed.

Lemma deriv_sound (c : N) (r : Regex.t) :
  forall s, Regex.lang (Regex.deriv c r) s -> Regex.lang r (c :: s).
Proof.
  induction r as [| |p|a IHa b IHb|a IHa b IHb|a IHa]; simpl; intros s H.
  - inversion H.
  - inversion H.
  - destruct (p c) eqn:E; inversion H; subst. now constructor.
  - assert (Hcat : forall s, Regex.lang (Regex.Cat (Regex.deriv c a) b) s ->
                             Regex.lang (Regex.Cat a b) (c :: s)).
    { intros s0 H0. inversion H0 as [| |a' b' s1 s2 H1 H2| | | |]; subst.
      exact (@Regex.lang_cat a b (c :: s1) s2 (IHa s1 H1) H2). }
    destruct (Regex.nullable a) eqn:Na; [|now apply Hcat].
    inversion H as [| | |a' b' s' H1|a' b' s' H1| |]; subst.
    + now apply Hcat.
    + exact (@Regex.lang_cat a b [] (c :: s) (nullable_lang_nil a Na)
               (IHb s H1)).
  - inversion H as [| | |a' b' s' H1|a' b' s' H1| |]; subst;
      [apply Regex.lang_alt_l | apply Regex.lang_alt_r]; auto.
  - inversion H as [| |a' b' s1 s2 H1 H2| | | |]; subst.
    exact (@Regex.lang_star_cons a (c :: s1) s2 (IHa s1 H1) H2).
Qed.

Lemma deriv_complete (r : Regex.t) (s' : list N) :
  Regex.lang r s' ->
  forall c s, s' = c :: s -> Regex.lang (Regex.deriv c r) s.
Proof.
  induction 1 as [|p d Hp|a b s1 s2 H1 IH1 H2 IH2|a b s0 _ IH|a b s0 _ IH
                  |a|a s1 s2 H1 IH1 H2 IH2]; intros c s E; simpl.
  - discriminate.
  - injection E as -> <-. rewrite Hp. constructor.
  - destruct s1 as [|c1 s1]; simpl in E.
    + rewrite (lang_nil_nullable a [] H1 eq_refl).
      apply Regex.lang_alt_r. now apply IH2.
    + injection E as -> <-.
      assert (Hc : Regex.lang (Regex.Cat (Regex.deriv c a) b) (s1 ++ s2))
        by (constructor; [now apply IH1 | exact H2]).
      destruct (Regex.nullable a); [now apply Regex.lang_alt_l | exact Hc].
  - apply Regex.lang_alt_l. now apply IH.
  - apply Regex.lang_alt_r. now apply IH.
  - discriminate.
  - destruct s1 as [|c1 s1]; simpl in E.
    + now apply IH2.
    + injection E as -> <-. constructor; [now apply IH1 | exact H2].
Qed.

(** Matching by derivatives decides the language of the pattern. *)
Lemma matches_lang (r : Regex.t) (s : list N) :
  Regex.matches r s = true <-> Regex.lang r s.
Proof.
  revert r. induction s as [|c s IH]; intros r; simpl.
  - split; [apply nullable_lang_nil | intros H; now apply (lang_nil_nullable r [])].
  - rewrite IH. split; [apply deriv_sound|].
    intros H. now apply (deriv_complete r (c :: s)).
Qed.

Lemma lang_class_inv (p : N -> bool) (s : list N) :
  Regex.lang (Regex.Class p) s <-> exists c, s = [c] /\ p c = true.
Proof.
  split.
  - intros H. inversion H; subst. eauto.
  - intros [c [-> Hc]]. now constructor.
Qed.

Lemma lang_cat_inv (a b : Regex.t) (s : list N) :
  Regex.lang (Regex.Cat a b) s
  <-> exists s1 s2, s = s1 ++ s2 /\ Regex.lang a s1 /\ Regex.lang b s2.
Proof.
  split.
  - intros H. inversion H; subst. eauto.
  - intros (s1 & s2 & -> & H1 & H2). now constructor.
Qed.

Lemma lang_star_class (p : N -> bool) (s : list N) :
  Regex.lang (Regex.Star (Regex.Class p)) s
  <-> Forall (fun c => p c = true) s.
Proof.
  split.
  - intros H. remember (Regex.Star (Regex.Class p)) as r eqn:E.
    induction H as [| | | | |a|a s1 s2 H1 _ H2 IH2]; try discriminate.
    + constructor.
    + injection E as ->. apply Forall_app. split; [|now apply IH2].
      apply lang_class_inv in H1. destruct H1 as [c [-> Hc]].
      now repeat constructor.
  - induction 1 as [|c l Hc _ IH]; [constructor|].
    exact (@Regex.lang_star_cons (Regex.Class p) [c] l
             (Regex.lang_class p c Hc) IH).
Qed.

Lemma lang_plus_class (p : N -> bool) (s : list N) :
  Regex.lang (Regex.plus (Regex.Class p)) s
  <-> s <> [] /\ Forall (fun c => p c = true) s.
Proof.
  unfold Regex.plus. rewrite lang_cat_inv. split.
  - intros (s1 & s2 & -> & H1 & H2).
    apply lang_class_inv in H1. destruct H1 as [c [-> Hc]].
    apply lang_star_class in H2. split; [discriminate|]. now constructor.
  - intros [Hne HF]. destruct s as [|c l]; [contradiction|].
    inversion_clear HF as [|? ? Hc Hl].
    exists [c], l. split; [reflexivity|].
    split; [now constructor | now apply lang_star_class].
Qed.

Lemma padraoEmail_forma (s : jsstring) :
  Regex.lang padraoEmail s <-> formaEmail s.
Proof.
  unfold padraoEmail, formaEmail, semEspacoNemArroba. split.
  - intros H.
    apply lang_cat_inv in H. destruct H as (u & r1 & -> & Hu & H).
    apply lang_cat_inv in H. destruct H as (a & r2 & -> & Ha & H).
    apply lang_cat_inv in H. destruct H as (v & r3 & -> & Hv & H).
    apply lang_cat_inv in H. destruct H as (d & w & -> & Hd & Hw).
    apply lang_class_inv in Ha. destruct Ha as [ca [-> Hca]].
    apply lang_class_inv in Hd. destruct Hd as [cd [-> Hcd]].
    apply N.eqb_eq in Hca, Hcd. subst ca cd.
    apply lang_plus_class in Hu, Hv, Hw.
    exists u, v, w. tauto.
  - intros (u & v & w & -> & Hu & Hv & Hw & Fu & Fv & Fw).
    apply lang_cat_inv. exists u, ([64%N] ++ v ++ [46%N] ++ w).
    split; [reflexivity|]. split; [now apply lang_plus_class|].
    apply lang_cat_inv. exists [64%N], (v ++ [46%N] ++ w).
    split; [reflexivity|]. split; [now constructor|].
    apply lang_cat_inv. exists v, ([46%N] ++ w).
    split; [reflexivity|]. split; [now apply lang_plus_class|].
    apply lang_cat_inv. exists [46%N], w.
    split; [reflexivity|]. split; [now constructor|].
    now apply lang_plus_class.
Qed.

Lemma semEspacoNemArroba_facts (s : jsstring) :
  semEspacoNemArroba s ->
  count_occ N.eq_dec s 64%N = 0%nat
  /\ Forall (fun c => JsString.isWhiteSpace c = false) s.
Proof.
  unfold semEspacoNemArroba, naoEspacoNemArroba.
  induction 1 as [|c l Hc _ [IHc IHw]]; [split; [reflexivity|constructor]|].
  rewrite negb_true_iff, orb_false_iff, N.eqb_neq in Hc.
  destruct Hc as [Hw Ha]. split.
  - simpl. destruct (N.eq_dec c 64); [contradiction|exact IHc].
  - now constructor.
Qed.

Lemma formaEmail_facts (s : jsstring) :
  formaEmail s ->
  count_occ N.eq_dec s 64%N = 1%nat
  /\ Forall (fun c => JsString.isWhiteSpace c = false) s
  /\ In 46%N s.
Proof.
  intros (u & v & w & -> & _ & _ & _ & Fu & Fv & Fw).
  destruct (semEspacoNemArroba_facts u Fu) as [Cu Wu].
  destruct (semEspacoNemArroba_facts v Fv) as [Cv Wv].
  destruct (semEspacoNemArroba_facts w Fw) as [Cw Ww].
  split; [|split].
  - rewrite !count_occ_app, Cu, Cv, Cw. reflexivity.
  - repeat (apply Forall_app; split); try assumption;
      repeat constructor.
  - apply in_or_app. right. apply in_or_app. right.
    apply in_or_app. right. apply in_or_app. left. now left.
Qed.

(** * The contact form *)

Lemma matches_padraoEmail (s : jsstring) :
  Regex.matches padraoEmail s = true <-> formaEmail s.
Proof. rewrite matches_lang. apply padraoEmail_forma. Qed.

(** X14.  The address test of the contact form accepts exactly the strings
    made of three non-empty runs of code units that are neither white
    space nor [@], the first two separated by [@] and the last two by a
    dot.  An accepted address therefore has one [@] and only one, has no
    white space anywhere, and has a dot. *)
Theorem email_accepted_shape (s : jsstring) :
  (Regex.matches padraoEmail s = true <-> formaEmail s)
  /\ (Regex.matches padraoEmail s = true ->
      count_occ N.eq_dec s 64%N = 1%nat
      /\ Forall (fun c => JsString.isWhiteSpace c = false) s
      /\ In 46%N s).
Proof.
  pose proof (matches_padraoEmail s) as H.
  split; [exact H|]. intros Hm. apply formaEmail_facts. now apply H.
Qed.

Lemma email_accepted_shape_witness :
  count_occ N.eq_dec (js "ana@ufc.br") 64%N = 1%nat.
Proof.
  apply (proj2 (email_accepted_shape (js "ana@ufc.br"))). reflexivity.
Defined.

Lemma emBranco_iff (s : jsstring) :
  negb (JsString.truthy (JsString.trim s)) = true <-> emBranco s.
Proof.
  unfold emBranco. destruct (JsString.trim s); simpl; split; congruence.
Qed.

Lemma handleSubmit_cases (fd : FormData) :
  ((emBranco (f_nome fd) \/ emBranco (f_email fd) \/ emBranco (f_mensagem fd))
   /\ handleSubmit fd = (fd, [mkNotification msgCampos error]))
  \/ (~ emBranco (f_nome fd) /\ ~ emBranco (f_email fd)
      /\ ~ emBranco (f_mensagem fd) /\ ~ formaEmail (f_email fd)
      /\ handleSubmit fd = (fd, [mkNotification msgEmail error]))
  \/ (~ emBranco (f_nome fd) /\ ~ emBranco (f_email fd)
      /\ ~ emBranco (f_mensagem fd) /\ formaEmail (f_email fd)
      /\ handleSubmit fd
         = (mkFormData [] [] [], [mkNotification msgEnviada success])).
Proof.
  pose proof (emBranco_iff (f_nome fd)) as B1.
  pose proof (emBranco_iff (f_email fd)) as B2.
  pose proof (emBranco_iff (f_mensagem fd)) as B3.
  pose proof (matches_padraoEmail (f_email fd)) as M.
  unfold handleSubmit.
  destruct (negb (JsString.truthy (JsString.trim (f_nome fd))));
    [left; split; [left; now apply B1 | reflexivity]|].
  destruct (negb (JsString.truthy (JsString.trim (f_email fd))));
    [left; split; [right; left; now apply B2 | reflexivity]|].
  destruct (negb (JsString.truthy (JsString.trim (f_mensagem fd))));
    [left; split; [right; right; now apply B3 | reflexivity]|].
  simpl. right.
  assert (N1 : ~ emBranco (f_nome fd)) by (intros H; apply B1 in H; discriminate).
  assert (N2 : ~ emBranco (f_email fd)) by (intros H; apply B2 in H; discriminate).
  assert (N3 : ~ emBranco (f_mensagem fd))
    by (intros H; apply B3 in H; discriminate).
  destruct (Regex.matches padraoEmail (f_email fd)); simpl.
  - right. repeat split; try assumption. now apply M.
  - left. repeat split; try assumption. intros H. apply M in H. discriminate.
Qed.

Lemma mensagens_contato_distintas : NoDup [msgCampos; msgEmail; msgEnviada].
Proof. repeat constructor; simpl; intuition discriminate. Qed.

(** X15.  [handleSubmit] checks the blank fields first and the address
    second.  If the name, the address or the message is blank once
    trimmed, it asks to fill every field, whatever the address looks like;
    otherwise, if the address has not the accepted shape, it asks for a
    valid address; in both cases the form keeps what was typed.  Otherwise
    it announces the sending and empties the three fields.  The three
    messages differ. *)
Theorem handleSubmit_outcomes (fd : FormData) :
  (emBranco (f_nome fd) \/ emBranco (f_email fd) \/ emBranco (f_mensagem fd) ->
   handleSubmit fd = (fd, [mkNotification msgCampos error]))
  /\ (~ emBranco (f_nome fd) -> ~ emBranco (f_email fd) ->
      ~ emBranco (f_mensagem fd) -> ~ formaEmail (f_email fd) ->
      handleSubmit fd = (fd, [mkNotification msgEmail error]))
  /\ (~ emBranco (f_nome fd) -> ~ emBranco (f_mensagem fd) ->
      formaEmail (f_email fd) ->
      handleSubmit fd
      = (mkFormData [] [] [], [mkNotification msgEnviada success]))
  /\ NoDup [msgCampos; msgEmail; msgEnviada].
Proof.
  pose proof mensagens_contato_distintas as D.
  assert (Hnb : formaEmail (f_email fd) -> ~ emBranco (f_email fd)).
  { intros Hf Hb. unfold emBranco in Hb.
    destruct (formaEmail_facts _ Hf) as (_ & Hw & _).
    destruct (f_email fd) as [|c l] eqn:E.
    - destruct Hf as (u & v & w & Es & _). now destruct u.
    - inversion_clear Hw as [|? ? Hc Hl].
      unfold JsString.trim, JsString.trimEnd in Hb.
      simpl in Hb. rewrite Hc in Hb.
      assert (Hr : rev (c :: l) <> []) by (simpl; now destruct (rev l)).
      destruct (rev (c :: l)) as [|x r] eqn:Er; [now apply Hr|].
      assert (Hx : JsString.isWhiteSpace x = false).
      { assert (Hin : In x (c :: l))
          by (apply in_rev; rewrite Er; now left).
        destruct Hin as [<-|Hin]; [exact Hc|].
        rewrite Forall_forall in Hl. now apply Hl. }
      simpl in Hb. rewrite Hx in Hb.
      apply (f_equal (@rev N)) in Hb. rewrite rev_involutive in Hb.
      discriminate. }
  destruct (handleSubmit_cases fd)
    as [[Hb E]|[(N1 & N2 & N3 & NF & E)|(N1 & N2 & N3 & F & E)]];
    rewrite E; intuition.
Qed.

Lemma handleSubmit_outcomes_witness :
  handleSubmit (mkFormData (js "Ana") (js "ana@ufc") (js "Oi"))
  = (mkFormData (js "Ana") (js "ana@ufc") (js "Oi"),
     [mkNotification msgEmail error]).
Proof.
  apply (proj1 (proj2 (handleSubmit_outcomes
                         (mkFormData (js "Ana") (js "ana@ufc") (js "Oi"))))).
  - vm_compute. discriminate.
  - vm_compute. discriminate.
  - vm_compute. discriminate.
  - intros H. apply matches_padraoEmail in H. vm_compute in H. discriminate.
Defined.

(** X16.  A submission emits exactly one toast and never clears the form
    in part: after a refusal the three fields are as they were, after a
    sending the three are empty.  Submitting again right after a sending
    sends nothing: the emptied form is refused with the request to fill
    every field. *)
Theorem handleSubmit_then_again (fd fd' : FormData)
        (log : list Notification) :
  handleSubmit fd = (fd', log) ->
  exists n,
    log = [n]
    /\ ((type n = error /\ fd' = fd)
        \/ (type n = success /\ fd' = mkFormData [] [] []
            /\ handleSubmit fd' = (fd', [mkNotification msgCampos error]))).
Proof.
  intros H.
  destruct (handleSubmit_cases fd)
    as [[_ E]|[(_ & _ & _ & _ & E)|(_ & _ & _ & _ & E)]];
    rewrite E in H; injection H as <- <-; eexists; split; try reflexivity.
  - now left.
  - now left.
  - right. repeat split.
Qed.

Lemma handleSubmit_then_again_witness :
  handleSubmit (fst (handleSubmit formOk))
  = (mkFormData [] [] [], [mkNotification msgCampos error]).
Proof.
  destruct (handleSubmit_then_again formOk (mkFormData [] [] [])
              [mkNotification msgEnviada success] eq_refl)
    as [n [_ [[_ H]|(_ & _ & H)]]].
  - discriminate.
  - exact H.
Defined.

(** X17.  [handleChange] writes one field: the field reads back the value
    typed, the two other fields are as before, a second value typed in the
    same field replaces the first one, and changes of two different fields
    can be made in either order. *)
Theorem handleChange_fields (c1 c2 : Campo) (v1 v2 : jsstring)
        (fd : FormData) :
  campoValor c1 (handleChange c1 v1 fd) = v1
  /\ (c1 <> c2 ->
      campoValor c2 (handleChange c1 v1 fd) = campoValor c2 fd)
  /\ handleChange c1 v2 (handleChange c1 v1 fd) = handleChange c1 v2 fd
  /\ (c1 <> c2 ->
      handleChange c1 v1 (handleChange c2 v2 fd)
      = handleChange c2 v2 (handleChange c1 v1 fd))
  /\ handleChange c1 (campoValor c1 fd) fd = fd.
Proof.
  destruct fd as [n e m].
  destruct c1, c2; simpl; repeat split; intros; try reflexivity;
    contradiction.
Qed.

Lemma handleChange_fields_witness :
  handleChange CampoNome (js "Ana")
    (handleChange CampoEmail (js "ana@ufc.br") (mkFormData [] [] []))
  = handleChange CampoEmail (js "ana@ufc.br")
      (handleChange CampoNome (js "Ana") (mkFormData [] [] [])).
Proof.
  apply (proj1 (proj2 (proj2 (proj2
           (handleChange_fields CampoNome CampoEmail (js "Ana")
              (js "ana@ufc.br") (mkFormData [] [] [])))))).
  discriminate.
Defined.

(** * The term pattern *)

Lemma padraoPeriodo_lang (s : jsstring) :
  Regex.lang padraoPeriodo s <-> matchPeriodo s = true.
Proof.
  unfold padraoPeriodo. cbv zeta. split.
  - intros H.
    apply lang_cat_inv in H. destruct H as (x1 & r1 & -> & H1 & H).
    apply lang_cat_inv in H. destruct H as (x2 & r2 & -> & H2 & H).
    apply lang_cat_inv in H. destruct H as (x3 & r3 & -> & H3 & H).
    apply lang_cat_inv in H. destruct H as (x4 & r4 & -> & H4 & H).
    apply lang_cat_inv in H. destruct H as (x5 & x6 & -> & H5 & H6).
    apply lang_class_inv in H1, H2, H3, H4, H5, H6.
    destruct H1 as [d1 [-> D1]]. destruct H2 as [d2 [-> D2]].
    destruct H3 as [d3 [-> D3]]. destruct H4 as [d4 [-> D4]].
    destruct H5 as [d5 [-> D5]]. destruct H6 as [d6 [-> D6]].
    simpl. now rewrite D1, D2, D3, D4, D5, D6.
  - unfold matchPeriodo.
    destruct s as [|d1 [|d2 [|d3 [|d4 [|d5 [|d6 [|x r]]]]]]];
      try discriminate.
    rewrite !andb_true_iff. intros [[[[[D1 D2] D3] D4] D5] D6].
    change [d1; d2; d3; d4; d5; d6]
      with ([d1] ++ [d2] ++ [d3] ++ [d4] ++ [d5] ++ [d6]).
    repeat (constructor; [now constructor|]). now constructor.
Qed.

(** X18.  The term test of [validateCourse] is the match of the whole
    string against four digits, a dot and 1 or 2: the hand-written test
    and the pattern decided by derivatives agree on every string.  So a
    term is accepted only if it has six code units, and a term followed
    by a line break or any other code unit is refused. *)
Theorem matchPeriodo_is_pattern (s : jsstring) :
  Regex.matches padraoPeriodo s = matchPeriodo s
  /\ (matchPeriodo s = true -> List.length s = 6%nat)
  /\ (matchPeriodo s = true -> forall c, matchPeriodo (s ++ [c]) = false).
Proof.
  assert (Hlen : forall s0, matchPeriodo s0 = true -> List.length s0 = 6%nat).
  { intros s0. unfold matchPeriodo.
    destruct s0 as [|d1 [|d2 [|d3 [|d4 [|d5 [|d6 [|x r]]]]]]];
      try discriminate. reflexivity. }
  split; [|split].
  - apply eq_true_iff_eq. rewrite matches_lang. apply padraoPeriodo_lang.
  - apply Hlen.
  - intros Hs c. apply Hlen in Hs.
    destruct (matchPeriodo (s ++ [c])) eqn:E; [|reflexivity].
    apply Hlen in E. rewrite length_app in E. simpl in E. lia.
Qed.

Lemma matchPeriodo_is_pattern_witness :
  List.length (js "2025.2") = 6%nat.
Proof.
  apply (proj1 (proj2 (matchPeriodo_is_pattern (js "2025.2")))). reflexivity.
Defined.

(** * Updating, then removing *)

Lemma filter_after_replace (i : jsstring) (u : Course) (cs : list Course) :
  id u = i ->
  filter (fun c => negb (JsString.eqb (id c) i))
         (map (fun c => if JsString.eqb (id c) i then u else c) cs)
  = filter (fun c => negb (JsString.eqb (id c) i)) cs.
Proof.
  intros Hu. induction cs as [|c l IH]; [reflexivity|]. simpl.
  destruct (JsString.eqb (id c) i) eqn:E; simpl.
  - rewrite Hu, JsString_eqb_refl. simpl. exact IH.
  - rewrite E. simpl. now rewrite IH.
Qed.

(** X19.  Editing a record and then removing it comes to removing it: the
    state after [update] and [remove] of the same identifier is the state
    after [remove] alone, whenever the update completes and its patch
    carries no identifier. *)
Theorem update_then_remove (i : jsstring) (patch : PartialCourse)
        (st st1 : Planner) (log : list Notification) :
  p_id patch = None ->
  update i patch st = Normal (st1, log) ->
  run [Update i patch; Remove i] st = run [Remove i] st.
Proof.
  intros Hp U. cbn [run handle]. rewrite U. unfold remove.
  destruct (update_outcome i patch st st1 log U) as [[->|[old [F ->]]] _];
    [reflexivity|].
  cbn [courses novo]. rewrite filter_after_replace; [reflexivity|].
  unfold spread; simpl. rewrite Hp.
  apply find_some in F. now apply JsString_eqb_eq.
Qed.

Lemma update_then_remove_witness :
  run [Update (js "a2") (patchNota 9); Remove (js "a2")] inicial
  = run [Remove (js "a2")] inicial.
Proof.
  apply (update_then_remove (js "a2") (patchNota 9) inicial
           (mkPlanner (map (fun c => if JsString.eqb (id c) (js "a2")
                                     then spread c (patchNota 9) else c)
                           (courses inicial)) (novo inicial))
           [mkNotification msgAtualizada success]).
  - reflexivity.
  - reflexivity.
Defined.

(** * The store and the index over binary64 *)

Lemma ieee_planner_eta (st : Ieee.Planner) :
  Ieee.mkPlanner (Ieee.courses st) (Ieee.novo st) = st.
Proof. now destruct st. Qed.

Lemma ieee_complete_objOf (c : Ieee.Course) :
  Ieee.complete (Ieee.objOf c) = Some c.
Proof. now destruct c. Qed.

Lemma ieee_spreadObj_objOf (c : Ieee.Course) (patch : Ieee.PartialCourse) :
  Ieee.spreadObj (Ieee.objOf c) patch = Ieee.objOf (Ieee.spread c patch).
Proof.
  destruct patch as [[?|] [?|] [?|] [?|] [?|] [?|]]; reflexivity.
Qed.

Lemma ieee_spreadObj_empty (patch : Ieee.PartialCourse) :
  Ieee.spreadObj Ieee.emptyObj patch = patch.
Proof.
  destruct patch as [[?|] [?|] [?|] [?|] [?|] [?|]]; reflexivity.
Qed.

Lemma ieee_completeAll_replace (p : Ieee.Course -> bool) (u : Ieee.Course)
      (cs : list Ieee.Course) :
  Ieee.completeAll
    (map (fun c => if p c then Ieee.objOf u else Ieee.objOf c) cs)
  = Some (map (fun c => if p c then u else c) cs).
Proof.
  induction cs as [|c cs IH]; simpl; [reflexivity|].
  rewrite IH. destruct (p c); now rewrite ieee_complete_objOf.
Qed.

Lemma ieee_completeAll_untouched (p : Ieee.Course -> bool)
      (o : Ieee.PartialCourse) (cs : list Ieee.Course) :
  (forall c, In c cs -> p c = false) ->
  Ieee.completeAll (map (fun c => if p c then o else Ieee.objOf c) cs)
  = Some cs.
Proof.
  induction cs as [|c cs IH]; simpl; intros Hp; [reflexivity|].
  rewrite (Hp c (or_introl eq_refl)), ieee_complete_objOf, IH; auto.
Qed.

(** On a complete record [validateCourse] returns: it accepts in silence
    or refuses with one toast. *)
Lemma ieee_validateCourse_complete (c : Ieee.Course) :
  Ieee.validateCourse (Ieee.objOf c) = Normal ([], true)
  \/ exists msg,
       Ieee.validateCourse (Ieee.objOf c)
       = Normal ([mkNotification msg error], false).
Proof.
  unfold Ieee.validateCourse; simpl.
  destruct (negb (JsString.truthy (JsString.trim (Ieee.nome c))));
    [right; eauto|].
  destruct (PrimFloat.leb (Ieee.ch c) 0); [right; eauto|].
  destruct (Status_eqb (Ieee.status c) Cursada
            && (Ieee.nota_vazia (Ieee.nota c)
                || PrimFloat.ltb (Ieee.Number_ (Ieee.nota c)) 0
                || PrimFloat.ltb 10 (Ieee.Number_ (Ieee.nota c))));
    [right; eauto|].
  destruct (negb (matchPeriodo (Ieee.periodo c))); [right; eauto | now left].
Qed.

(** What [update] does, by what [find] returns. *)
Lemma ieee_update_present (i : jsstring) (patch : Ieee.PartialCourse)
      (st : Ieee.Planner) (old : Ieee.Course) :
  find (fun c => JsString.eqb (Ieee.id c) i) (Ieee.courses st) = Some old ->
  Ieee.update i patch st
  = match Ieee.validateCourse (Ieee.objOf (Ieee.spread old patch)) with
    | Normal (log, true) =>
        Normal (Ieee.mkPlanner
                  (map (fun c => if JsString.eqb (Ieee.id c) i
                                 then Ieee.spread old patch else c)
                       (Ieee.courses st))
                  (Ieee.novo st),
                log ++ [mkNotification msgAtualizada success])
    | Normal (log, false) => Normal (st, log)
    | TypeError => TypeError
    | Untyped => Untyped
    end.
Proof.
  intros Hfind. unfold Ieee.update, Ieee.found.
  rewrite Hfind, ieee_spreadObj_objOf.
  destruct (Ieee.validateCourse (Ieee.objOf (Ieee.spread old patch)))
    as [[log [|]]| |]; try reflexivity.
  now rewrite ieee_completeAll_replace.
Qed.

Lemma ieee_update_absent (i : jsstring) (patch : Ieee.PartialCourse)
      (st : Ieee.Planner) :
  find (fun c => JsString.eqb (Ieee.id c) i) (Ieee.courses st) = None ->
  Ieee.update i patch st
  = match Ieee.validateCourse patch with
    | Normal (log, true) =>
        Normal (st, log ++ [mkNotification msgAtualizada success])
    | Normal (log, false) => Normal (st, log)
    | TypeError => TypeError
    | Untyped => Untyped
    end.
Proof.
  intros Hfind. unfold Ieee.update, Ieee.found.
  rewrite Hfind, ieee_spreadObj_empty.
  destruct (Ieee.validateCourse patch) as [[log [|]]| |]; try reflexivity.
  rewrite (ieee_completeAll_untouched _ patch (Ieee.courses st)).
  - now rewrite ieee_planner_eta.
  - intros c Hc. exact (find_none _ _ Hfind c Hc).
Qed.

(** A record of the collection after an event was there before, or is one
    that [validateCourse] has just accepted. *)
Lemma ieee_handle_courses (e : Ieee.Event) (st st' : Ieee.Planner)
      (log : list Notification) :
  Ieee.handle e st = Normal (st', log) ->
  forall c, In c (Ieee.courses st') ->
            In c (Ieee.courses st) \/ Ieee.aceita c.
Proof.
  destruct e as [patch|g1 g2|i patch|i]; simpl.
  - intros [= <- _] c Hc. now left.
  - unfold Ieee.addCourse.
    destruct (ieee_validateCourse_complete (Ieee.novo st)) as [V|[msg V]];
      rewrite V.
    + intros [= <- _] c [<-|Hc]; [right|now left]. exact V.
    + intros [= <- _] c Hc. now left.
  - destruct (find (fun c => JsString.eqb (Ieee.id c) i) (Ieee.courses st))
      as [old|] eqn:F.
    + rewrite (ieee_update_present i patch st old F).
      destruct (ieee_validateCourse_complete (Ieee.spread old patch))
        as [V|[msg V]]; rewrite V.
      * intros [= <- _] c Hc. simpl in Hc.
        apply in_map_iff in Hc. destruct Hc as [d [Hd Hin]].
        destruct (JsString.eqb (Ieee.id d) i); subst c;
          [right; exact V | now left].
      * intros [= <- _] c Hc. now left.
    + rewrite (ieee_update_absent i patch st F).
      destruct (Ieee.validateCourse patch) as [[l [|]]| |];
        try discriminate; intros [= <- _] c Hc; now left.
  - intros [= <- _] c Hc. simpl in Hc. apply filter_In in Hc. now left.
Qed.

Lemma ieee_reachable_aceita (st : Ieee.Planner) :
  Ieee.reachable st -> Forall Ieee.aceita (Ieee.courses st).
Proof.
  induction 1 as [i1 i2 i3 g ano|e st st' log _ IH H].
  - repeat constructor; reflexivity.
  - apply Forall_forall. intros c Hc.
    destruct (ieee_handle_courses e st st' log H c Hc) as [Hold|Hv];
      [|exact Hv].
    rewrite Forall_forall in IH. now apply IH.
Qed.

Lemma ieee_reachable_run (es : list Ieee.Event) (st st' : Ieee.Planner) :
  Ieee.reachable st -> Ieee.run es st = Some st' -> Ieee.reachable st'.
Proof.
  revert st. induction es as [|e es IH]; simpl; intros st Hr.
  - now intros [= <-].
  - destruct (Ieee.handle e st) as [[st1 log]| |] eqn:H; try discriminate.
    apply IH. exact (@Ieee.reach_step e st st1 log Hr H).
Qed.

Lemma ieee_inicial_reachable : Ieee.reachable Ieee.inicial.
Proof.
  exact (Ieee.reach_seed (js "a1") (js "a2") (js "a3") (js "n0") (js "2025")).
Qed.

(** What an accepted record is: the four tests of [validateCourse] are
    false on it. *)
Lemma ieee_aceita_tests (c : Ieee.Course) :
  Ieee.aceita c ->
  JsString.trim (Ieee.nome c) <> []
  /\ PrimFloat.leb (Ieee.ch c) 0 = false
  /\ (Ieee.status c = Cursada ->
      exists x, Ieee.nota c = Ieee.NotaNum x
                /\ PrimFloat.ltb x 0 = false /\ PrimFloat.ltb 10 x = false)
  /\ matchPeriodo (Ieee.periodo c) = true.
Proof.
  unfold Ieee.aceita, Ieee.validateCourse; simpl.
  destruct (JsString.truthy (JsString.trim (Ieee.nome c))) eqn:E1; simpl;
    [|discriminate].
  destruct (PrimFloat.leb (Ieee.ch c) 0) eqn:E2; [discriminate|].
  destruct (Status_eqb (Ieee.status c) Cursada
            && (Ieee.nota_vazia (Ieee.nota c)
                || PrimFloat.ltb (Ieee.Number_ (Ieee.nota c)) 0
                || PrimFloat.ltb 10 (Ieee.Number_ (Ieee.nota c)))) eqn:E3;
    [discriminate|].
  destruct (matchPeriodo (Ieee.periodo c)) eqn:E4; simpl; [|discriminate].
  intros _. split; [now apply truthy_nonempty|]. split; [reflexivity|].
  split; [|reflexivity].
  intros Hs. rewrite Hs in E3. simpl in E3.
  destruct (Ieee.nota c) as [|x]; simpl in E3; [discriminate|].
  apply orb_false_iff in E3. exists x. tauto.
Qed.

(** A double for which [x <= 0] is false is greater than 0, or is [NaN]. *)
Lemma leb_zero_false (x : float) :
  PrimFloat.leb x 0 = false ->
  PrimFloat.ltb 0 x = true \/ PrimFloat.is_nan x = true.
Proof.
  rewrite leb_spec, ltb_spec. unfold PrimFloat.is_nan. rewrite eqb_spec.
  replace (Prim2SF 0) with (S754_zero false) by reflexivity.
  destruct (Prim2SF x) as [s|s| |s m e]; try destruct s; cbn; auto;
    discriminate.
Qed.

(** ** Scenarios of the specification, on doubles *)

Example ieee_cenario_1 :
  exists st,
    Ieee.addCourse (js "p1") (js "n1")
      (Ieee.mkPlanner [] (Ieee.curso (js "n0") "Physics I" 64 8 Cursada))
    = Normal (st, [mkNotification msgAdicionada success])
    /\ Ieee.courses st = [Ieee.curso (js "p1") "Physics I" 64 8 Cursada]
    /\ Ieee.calcIRA (Ieee.courses st) = 8%float.
Proof. eexists. split; [reflexivity|]. split; reflexivity. Qed.

Example ieee_cenario_2 :
  Ieee.calcIRA [Ieee.curso (js "p2") "Calc II" 64 6 Cursada;
                Ieee.curso (js "p1") "Physics I" 64 8 Cursada]
  = 7%float.
Proof. reflexivity. Qed.

Example ieee_cenario_4 :
  Ieee.calcIRA [Ieee.mkCourse (js "p4") (js "Future Course") 32 Ieee.NotaVazia
                              (js "2026.1") ACursar;
                Ieee.curso (js "p2") "Calc II" 64 6 Cursada;
                Ieee.curso (js "p1") "Physics I" 64 8 Cursada]
  = 7%float.
Proof. reflexivity. Qed.

(** ** The index on doubles *)

Set Warnings "-inexact-float".

Lemma ieee_concluida_qualifies (c : Ieee.Course) :
  Ieee.concluida c = true <-> Ieee.qualifies c.
Proof.
  unfold Ieee.concluida, Ieee.qualifies.
  rewrite andb_true_iff, !negb_true_iff.
  destruct (Ieee.status c), (Ieee.nota c); simpl; intuition congruence.
Qed.

(** C1, as the code has it.  [calcIRA] keeps exactly the records whose
    status is not "A cursar" and whose grade is set, adds up grade times
    hours and hours over them from the left in double precision, and
    returns the quotient of the two sums when the sum of the hours is not
    0, and 0 when it is.  The result depends on the collection only
    through the sequence of the records that count: it is the same for
    every rearrangement that keeps those records in their order, and a
    record that does not count can be put anywhere.  (Rearranging the
    records that count can change the result by rounding.) *)
Theorem calcIRA_double_quotient (courses : list Ieee.Course) :
  let concl := filter Ieee.concluida courses in
  let somaP :=
    fold_left (fun acc c =>
                 PrimFloat.add acc
                   (PrimFloat.mul (Ieee.Number_ (Ieee.nota c)) (Ieee.ch c)))
              concl 0%float in
  let somaCH :=
    fold_left (fun acc c => PrimFloat.add acc (Ieee.ch c)) concl 0%float in
  (forall c, In c concl <-> In c courses /\ Ieee.qualifies c)
  /\ (PrimFloat.eqb somaCH 0 = false ->
      Ieee.calcIRA courses = PrimFloat.div somaP somaCH)
  /\ (PrimFloat.eqb somaCH 0 = true -> Ieee.calcIRA courses = 0%float)
  /\ (forall courses',
        filter Ieee.concluida courses' = concl ->
        Ieee.calcIRA courses' = Ieee.calcIRA courses)
  /\ (forall l1 l2 c,
        courses = l1 ++ l2 -> ~ Ieee.qualifies c ->
        Ieee.calcIRA (l1 ++ c :: l2) = Ieee.calcIRA courses).
Proof.
  intros concl somaP somaCH.
  split; [|split; [|split; [|split]]].
  - intros c. unfold concl. rewrite filter_In, ieee_concluida_qualifies.
    tauto.
  - intros H. unfold Ieee.calcIRA. fold concl. fold somaCH. now rewrite H.
  - intros H. unfold Ieee.calcIRA. fold concl. fold somaCH. now rewrite H.
  - intros courses' H. unfold Ieee.calcIRA. now rewrite H.
  - intros l1 l2 c -> Hc. unfold Ieee.calcIRA. rewrite !filter_app. simpl.
    destruct (Ieee.concluida c) eqn:E; [|reflexivity].
    apply ieee_concluida_qualifies in E. contradiction.
Qed.

Lemma calcIRA_double_quotient_witness :
  Ieee.calcIRA (Ieee.courses Ieee.inicial)
  = PrimFloat.div (7 * 128 + 8 * 64)%float (128 + 64)%float
  /\ Ieee.calcIRA (Ieee.courses Ieee.inicial) = 7.333333333333333%float.
Proof.
  split.
  - rewrite (proj1 (proj2 (calcIRA_double_quotient
                             (Ieee.courses Ieee.inicial)))).
    + reflexivity.
    + reflexivity.
  - reflexivity.
Defined.

(** C1, as stated, fails on doubles.  Three courses done, of one hour
    each, with grades 0.1, 0.2 and 0.3: in this order the index is
    0.20000000000000004, in the reverse order 0.19999999999999998.  The
    two collections are permutations of each other, and an exact quotient
    of the sums could not be both. *)
Lemma calcIRA_order_dependent :
  let l := [Ieee.curso (js "c1") "A" 1 0.1 Cursada;
            Ieee.curso (js "c2") "B" 1 0.2 Cursada;
            Ieee.curso (js "c3") "C" 1 0.3 Cursada] in
  Permutation l (rev l)
  /\ Forall Ieee.aceita l
  /\ Ieee.calcIRA l = 0.20000000000000004%float
  /\ Ieee.calcIRA (rev l) = 0.19999999999999998%float
  /\ PrimFloat.eqb (Ieee.calcIRA l) (Ieee.calcIRA (rev l)) = false.
Proof.
  cbv zeta. split; [apply Permutation_rev|].
  split; [repeat constructor; reflexivity|].
  split; [reflexivity|]. split; reflexivity.
Qed.

(** ** Credit hours in the reachable states *)

(** C9, as the code has it.  In every state that the store reaches from
    the seed, the test [ch <= 0] of [validateCourse] is false on the
    credit hours of every record: they are greater than 0, or they are
    [NaN], which the test lets through.  They need not be whole. *)
Theorem creditHours_never_nonpositive (st : Ieee.Planner) :
  Ieee.reachable st ->
  Forall (fun c => PrimFloat.leb (Ieee.ch c) 0 = false
                   /\ (PrimFloat.ltb 0 (Ieee.ch c) = true
                       \/ PrimFloat.is_nan (Ieee.ch c) = true))
         (Ieee.courses st).
Proof.
  intros Hr. pose proof (ieee_reachable_aceita st Hr) as H.
  apply Forall_forall. intros c Hc. rewrite Forall_forall in H.
  destruct (ieee_aceita_tests c (H c Hc)) as (_ & Hch & _).
  split; [exact Hch | now apply leb_zero_false].
Qed.

(** A course is added, the hours of another are edited, a third one is
    removed: the three records left have positive hours. *)
Lemma creditHours_never_nonpositive_witness :
  exists st,
    Ieee.run (Ieee.cadastrar (js "Lab") 32 (Ieee.NotaNum 9) Cursada
                             (js "b1") (js "n1")
              ++ [Ieee.Update (js "a2") (Ieee.patchCH 96);
                  Ieee.Remove (js "a1")])
             Ieee.inicial = Some st
    /\ map Ieee.ch (Ieee.courses st) = [32; 96; 64]%float
    /\ Forall (fun c => PrimFloat.leb (Ieee.ch c) 0 = false
                        /\ (PrimFloat.ltb 0 (Ieee.ch c) = true
                            \/ PrimFloat.is_nan (Ieee.ch c) = true))
              (Ieee.courses st).
Proof.
  eexists. split; [vm_compute; reflexivity|]. split; [reflexivity|].
  apply creditHours_never_nonpositive.
  apply (ieee_reachable_run
           (Ieee.cadastrar (js "Lab") 32 (Ieee.NotaNum 9) Cursada
                           (js "b1") (js "n1")
            ++ [Ieee.Update (js "a2") (Ieee.patchCH 96);
                Ieee.Remove (js "a1")])
           Ieee.inicial); [exact ieee_inicial_reachable|].
  vm_compute. reflexivity.
Defined.

(** C9, as stated, fails twice.  One hour and a half typed in the draft
    row is accepted: the store reaches a state whose first record has 1.5
    credit hours, strictly between 1 and 2.  And [update] with a patch
    whose hours are [NaN] is accepted, because [NaN <= 0] is false: the
    store reaches a state with a record whose hours are not greater than
    0. *)
Lemma creditHours_fraction_or_nan :
  (exists st c,
      Ieee.run (Ieee.cadastrar (js "Lab") 1.5 Ieee.NotaVazia ACursar
                               (js "b1") (js "n1"))
               Ieee.inicial = Some st
      /\ Ieee.reachable st
      /\ In c (Ieee.courses st)
      /\ Ieee.ch c = 1.5%float
      /\ PrimFloat.ltb 1 (Ieee.ch c) = true
      /\ PrimFloat.ltb (Ieee.ch c) 2 = true)
  /\ (exists st c,
        Ieee.run [Ieee.Update (js "a1") (Ieee.patchCH PrimFloat.nan)]
                 Ieee.inicial = Some st
        /\ Ieee.reachable st
        /\ In c (Ieee.courses st)
        /\ PrimFloat.is_nan (Ieee.ch c) = true
        /\ PrimFloat.ltb 0 (Ieee.ch c) = false).
Proof.
  split.
  - eexists. eexists. split; [vm_compute; reflexivity|]. split.
    + apply (ieee_reachable_run
               (Ieee.cadastrar (js "Lab") 1.5 Ieee.NotaVazia ACursar
                               (js "b1") (js "n1"))
               Ieee.inicial); [exact ieee_inicial_reachable|].
      vm_compute. reflexivity.
    + split; [left; reflexivity|]. repeat split.
  - eexists. eexists. split; [vm_compute; reflexivity|]. split.
    + apply (ieee_reachable_run
               [Ieee.Update (js "a1") (Ieee.patchCH PrimFloat.nan)]
               Ieee.inicial); [exact ieee_inicial_reachable|].
      vm_compute. reflexivity.
    + split; [left; reflexivity|]. repeat split.
Qed.

(** ** Every stored record is one that validation accepts *)

(** X1.  In every state that the store reaches from the seed, every record
    of the collection is one that [validateCourse] accepts as it stands:
    its name is not blank once trimmed, the test [ch <= 0] is false on its
    hours, its term is well formed, and if its status is "Cursada" its
    grade is set and is neither below 0 nor above 10 (a grade that is
    [NaN] passes both comparisons). *)
Theorem reachable_records_accepted (st : Ieee.Planner) :
  Ieee.reachable st ->
  Forall (fun c =>
            Ieee.validateCourse (Ieee.objOf c) = Normal ([], true)
            /\ JsString.trim (Ieee.nome c) <> []
            /\ PrimFloat.leb (Ieee.ch c) 0 = false
            /\ (Ieee.status c = Cursada ->
                exists x, Ieee.nota c = Ieee.NotaNum x
                          /\ PrimFloat.ltb x 0 = false
                          /\ PrimFloat.ltb 10 x = false)
            /\ matchPeriodo (Ieee.periodo c) = true)
         (Ieee.courses st).
Proof.
  intros Hr. pose proof (ieee_reachable_aceita st Hr) as H.
  apply Forall_forall. intros c Hc. rewrite Forall_forall in H.
  split; [exact (H c Hc) | exact (ieee_aceita_tests c (H c Hc))].
Qed.

Lemma reachable_records_accepted_witness :
  exists st,
    Ieee.run (Ieee.cadastrar (js "Lab") 32 (Ieee.NotaNum 9) Cursada
                             (js "b1") (js "n1")
              ++ [Ieee.Update (js "a2") (Ieee.patchNota 9.5);
                  Ieee.Remove (js "a1")])
             Ieee.inicial = Some st
    /\ List.length (Ieee.courses st) = 3%nat
    /\ Forall (fun c => Ieee.validateCourse (Ieee.objOf c) = Normal ([], true))
              (Ieee.courses st).
Proof.
  eexists. split; [vm_compute; reflexivity|]. split; [reflexivity|].
  eapply Forall_impl;
    [|apply reachable_records_accepted;
      apply (ieee_reachable_run
               (Ieee.cadastrar (js "Lab") 32 (Ieee.NotaNum 9) Cursada
                               (js "b1") (js "n1")
                ++ [Ieee.Update (js "a2") (Ieee.patchNota 9.5);
                    Ieee.Remove (js "a1")])
               Ieee.inicial); [exact ieee_inicial_reachable|];
      vm_compute; reflexivity].
  intros c H. exact (proj1 H).
Defined.
